(** * Question extraction, LaTeX conversion, validation and retrieval

    A shallow embedding of the text-processing core of the RD Sharma
    question extractor:

    - [src/extractors/question_extractor.py]  ([QuestionExtractor])
    - [src/processors/latex_converter.py]     ([LaTeXConverter])
    - [src/processors/validator.py]           ([Validator])
    - [src/rag/retriever.py]                  ([Retriever64], [Retriever])
    - [src/rag/embeddings.py]                 ([EmbeddingGenerator])
    - [src/rag/vector_store.py]               ([VectorStore], [Database])

    Conventions.  A Python [str] is a Rocq [string]; a character outside
    ASCII stands as its UTF-8 bytes, [len] counts code points
    ([Str.len]), and the classes [\d], [\s], [\w] and [str.lower] are
    the ASCII ones.  Python [float] is IEEE binary64 ([PrimFloat]).
    Python [int] is [Z] or [nat].

    The re-ranking of the retriever is embedded twice.  [Retriever64]
    computes the scores in binary64, as Python does, and takes
    [str.lower] and [str.split] as they are.  [Retriever] computes them
    as exact rationals ([Q]): it serves the statements on the range of
    the scores and on the order of results whose scores rounding keeps
    apart. *)

From Stdlib Require Import Bool Arith ZArith List String Ascii Lia.
From Stdlib Require Import Permutation Sorted.
From Stdlib Require Import QArith Lqa.
From Stdlib Require Import PrimFloat.
From Stdlib Require FloatOps FloatAxioms SpecFloat.
From Stdlib Require Import DecimalString.
From Stdlib Require DecimalNat DecimalFacts Finite.
Import ListNotations.

Set Warnings "-inexact-float".

Local Open Scope bool_scope.
Local Open Scope list_scope.
Local Open Scope string_scope.
Local Open Scope nat_scope.

(* ================================================================== *)
(** * Python strings *)
(* ================================================================== *)

Module Str.

Definition code (c : ascii) : nat := nat_of_ascii c.

Definition between (lo hi : nat) (c : ascii) : bool :=
  (lo <=? code c) && (code c <=? hi).

(** [str.isspace] on the ASCII range: TAB..CR, FS..US and SPACE. *)
Definition is_space (c : ascii) : bool := between 9 13 c || between 28 32 c.
Definition is_digit (c : ascii) : bool := between 48 57 c.
Definition is_upper (c : ascii) : bool := between 65 90 c.
Definition is_lower (c : ascii) : bool := between 97 122 c.
Definition is_alpha (c : ascii) : bool := is_upper c || is_lower c.
Definition is_alnum (c : ascii) : bool := is_alpha c || is_digit c.
(** [\w] *)
Definition is_word (c : ascii) : bool := is_alnum c || Ascii.eqb c "_".

Definition lower_char (c : ascii) : ascii :=
  if is_upper c then ascii_of_nat (code c + 32) else c.
Definition upper_char (c : ascii) : ascii :=
  if is_lower c then ascii_of_nat (code c - 32) else c.

(** [s.lower()] *)
Fixpoint lower (s : string) : string :=
  match s with
  | EmptyString => EmptyString
  | String c s' => String (lower_char c) (lower s')
  end.

Definition nl : ascii := "010"%char.
Definition NL : string := String nl EmptyString.

(** [s.startswith(p)] *)
Fixpoint startswith (p s : string) : bool :=
  match p, s with
  | EmptyString, _ => true
  | String a p', String b s' => Ascii.eqb a b && startswith p' s'
  | String _ _, EmptyString => false
  end.

(** [p in s] *)
Fixpoint contains (p s : string) : bool :=
  startswith p s ||
  match s with
  | EmptyString => false
  | String _ s' => contains p s'
  end.

(** [c in s] for a single character. *)
Fixpoint mem_char (c : ascii) (s : string) : bool :=
  match s with
  | EmptyString => false
  | String d s' => Ascii.eqb c d || mem_char c s'
  end.

(** The first [n] characters. *)
Fixpoint take (n : nat) (s : string) : string :=
  match n, s with
  | S n', String c s' => String c (take n' s')
  | _, _ => EmptyString
  end.

(** [s.lstrip()], [s.rstrip()], [s.strip()] *)
Fixpoint lstrip (s : string) : string :=
  match s with
  | String c s' => if is_space c then lstrip s' else s
  | EmptyString => EmptyString
  end.

Fixpoint rstrip (s : string) : string :=
  match s with
  | EmptyString => EmptyString
  | String c s' =>
      match rstrip s' with
      | EmptyString => if is_space c then EmptyString else String c EmptyString
      | r => String c r
      end
  end.

Definition strip (s : string) : string := rstrip (lstrip s).

(** [s.split(sep)] for a one-character separator; the current field is
    accumulated in [cur]. *)
Fixpoint split_acc (sep : ascii) (cur : string) (s : string) : list string :=
  match s with
  | EmptyString => [cur]
  | String c s' =>
      if Ascii.eqb c sep then cur :: split_acc sep EmptyString s'
      else split_acc sep (cur ++ String c EmptyString) s'
  end.

Definition split (sep : ascii) (s : string) : list string :=
  split_acc sep EmptyString s.

(** [sep.join(l)] *)
Fixpoint join (sep : string) (l : list string) : string :=
  match l with
  | [] => EmptyString
  | [x] => x
  | x :: l' => x ++ sep ++ join sep l'
  end.

(** [s.split()]: the maximal runs of non-space characters. *)
Fixpoint words_acc (cur : string) (s : string) : list string :=
  match s with
  | EmptyString => match cur with EmptyString => [] | _ => [cur] end
  | String c s' =>
      if is_space c
      then match cur with
           | EmptyString => words_acc EmptyString s'
           | _ => cur :: words_acc EmptyString s'
           end
      else words_acc (cur ++ String c EmptyString) s'
  end.

Definition words (s : string) : list string := words_acc EmptyString s.

(** [s.replace(old, new)]: every occurrence, left to right, without
    overlap; [skip] counts the characters of an occurrence still to drop.
    An empty [old] puts [new] before every character and at the end. *)
Fixpoint replace_aux (old new : string) (skip : nat) (s : string) : string :=
  match s with
  | EmptyString => EmptyString
  | String c s' =>
      match skip with
      | S k => replace_aux old new k s'
      | O =>
          if startswith old s
          then new ++ replace_aux old new (length old - 1) s'
          else String c (replace_aux old new 0 s')
      end
  end.

Fixpoint interleave (new : string) (s : string) : string :=
  match s with
  | EmptyString => new
  | String c s' => new ++ String c (interleave new s')
  end.

Definition replace (old new s : string) : string :=
  match old with
  | EmptyString => interleave new s
  | _ => replace_aux old new 0 s
  end.

(** [s.count(sub)]: occurrences without overlap. *)
Fixpoint count_aux (sub : string) (skip : nat) (s : string) : nat :=
  match s with
  | EmptyString => 0
  | String c s' =>
      match skip with
      | S k => count_aux sub k s'
      | O =>
          if startswith sub s
          then S (count_aux sub (length sub - 1) s')
          else count_aux sub 0 s'
      end
  end.

Definition count (sub s : string) : nat :=
  match sub with
  | EmptyString => S (length s)
  | _ => count_aux sub 0 s
  end.

(** [str(i)] for a natural number. *)
Definition of_nat (n : nat) : string := NilZero.string_of_uint (Nat.to_uint n).

(** Truth value of a string: non-empty. *)
Definition truthy (s : string) : bool :=
  match s with EmptyString => false | _ => true end.

(** [len(s)]: the number of code points.  In UTF-8 every code point
    has one byte that is not a continuation byte ([10xxxxxx]). *)
Definition is_continuation (c : ascii) : bool := between 128 191 c.

Fixpoint len (s : string) : nat :=
  match s with
  | EmptyString => 0
  | String c s' => if is_continuation c then len s' else S (len s')
  end.

End Str.

(* ================================================================== *)
(** * Regular expressions, as Python's [re] matches them *)
(* ================================================================== *)

Module Re.

Record flags : Set := { multiline : bool; ignorecase : bool }.
Definition NOFLAGS : flags := {| multiline := false; ignorecase := false |}.
Definition MULTILINE : flags := {| multiline := true; ignorecase := false |}.
Definition IGNORECASE : flags := {| multiline := false; ignorecase := true |}.

(** The fragment of the pattern language the sources use. *)
Inductive regex : Type :=
| Eps                               (* the empty pattern *)
| Cls (p : ascii -> bool)           (* one character of a class *)
| Seq (a b : regex)                 (* ab *)
| Alt (a b : regex)                 (* a|b *)
| Star (a : regex)                  (* a*  (greedy) *)
| LazyStar (a : regex)              (* a*? *)
| Group (i : nat) (a : regex)       (* (a), the i-th capture *)
| Bol                               (* ^ *)
| WordB.                            (* \b *)

Definition chr (c : ascii) : regex := Cls (Ascii.eqb c).
Fixpoint lit (s : string) : regex :=
  match s with
  | EmptyString => Eps
  | String c EmptyString => chr c
  | String c s' => Seq (chr c) (lit s')
  end.
Definition plus (a : regex) : regex := Seq a (Star a).
Definition opt (a : regex) : regex := Alt a Eps.
Definition oneof (s : string) : regex := Cls (fun c => Str.mem_char c s).
Definition noneof (s : string) : regex := Cls (fun c => negb (Str.mem_char c s)).
Definition dot : regex := Cls (fun c => negb (Ascii.eqb c Str.nl)).
Definition digit : regex := Cls Str.is_digit.                (* \d *)
Definition space : regex := Cls Str.is_space.                (* \s *)
Definition az : regex := Cls Str.is_lower.                   (* [a-z] *)
Definition alpha : regex := Cls Str.is_alpha.                (* [a-zA-Z] *)
Definition alnum : regex := Cls Str.is_alnum.                (* [a-zA-Z0-9] *)
Fixpoint seq (l : list regex) : regex :=
  match l with
  | [] => Eps
  | [a] => a
  | a :: l' => Seq a (seq l')
  end.
Fixpoint alts (l : list regex) : regex :=
  match l with
  | [] => Cls (fun _ => false)
  | [a] => a
  | a :: l' => Alt a (alts l')
  end.

(** Captured groups, the latest binding first. *)
Definition caps : Set := list (nat * string).

Fixpoint group (i : nat) (cs : caps) : string :=
  match cs with
  | [] => EmptyString
  | (j, s) :: cs' => if Nat.eqb i j then s else group i cs'
  end.

Definition cls_ok (fl : flags) (p : ascii -> bool) (c : ascii) : bool :=
  p c || (ignorecase fl && (p (Str.lower_char c) || p (Str.upper_char c))).

Definition word_at (o : option ascii) : bool :=
  match o with Some c => Str.is_word c | None => false end.

Definition head (s : string) : option ascii :=
  match s with String c _ => Some c | EmptyString => None end.

Definition at_bol (fl : flags) (prev : option ascii) : bool :=
  match prev with
  | None => true
  | Some c => multiline fl && Ascii.eqb c Str.nl
  end.

(** A backtracking matcher in continuation-passing style: [prev] is the
    character before the current position ([None] at the start of the
    text), [s] the text from the current position on.  It answers with
    the text left after the match and the captures, trying alternatives
    in Python's order (left alternative first, greedy repetition longest
    first, lazy repetition shortest first).  A repetition stops at an
    iteration that consumes nothing. *)
Definition answer : Set := option (string * caps).
Definition cont : Set := option ascii -> string -> caps -> answer.

Fixpoint run (fl : flags) (r : regex) (prev : option ascii) (s : string)
         (cs : caps) (k : cont) {struct r} : answer :=
  match r with
  | Eps => k prev s cs
  | Cls p =>
      match s with
      | String c s' => if cls_ok fl p c then k (Some c) s' cs else None
      | EmptyString => None
      end
  | Seq a b => run fl a prev s cs (fun p' s' cs' => run fl b p' s' cs' k)
  | Alt a b =>
      match run fl a prev s cs k with
      | Some x => Some x
      | None => run fl b prev s cs k
      end
  | Star a =>
      (fix loop (fuel : nat) (prev : option ascii) (s : string) (cs : caps)
           {struct fuel} : answer :=
         match fuel with
         | O => k prev s cs
         | S f =>
             match run fl a prev s cs
                     (fun p' s' cs' =>
                        if length s' <? length s then loop f p' s' cs'
                        else None) with
             | Some x => Some x
             | None => k prev s cs
             end
         end) (S (length s)) prev s cs
  | LazyStar a =>
      (fix loop (fuel : nat) (prev : option ascii) (s : string) (cs : caps)
           {struct fuel} : answer :=
         match fuel with
         | O => k prev s cs
         | S f =>
             match k prev s cs with
             | Some x => Some x
             | None =>
                 run fl a prev s cs
                   (fun p' s' cs' =>
                      if length s' <? length s then loop f p' s' cs'
                      else None)
             end
         end) (S (length s)) prev s cs
  | Group i a =>
      run fl a prev s cs
        (fun p' s' cs' =>
           k p' s' ((i, Str.take (length s - length s') s) :: cs'))
  | Bol => if at_bol fl prev then k prev s cs else None
  | WordB =>
      if xorb (word_at prev) (word_at (head s)) then k prev s cs else None
  end.

(** A match at the current position: the matched text, the text after it
    and the captures. *)
Record rmatch : Set := { whole : string; rest : string; groups : caps }.

Definition match_here (fl : flags) (r : regex) (prev : option ascii)
           (s : string) : option rmatch :=
  match run fl r prev s [] (fun _ s' cs => Some (s', cs)) with
  | Some (s', cs) =>
      Some {| whole := Str.take (length s - length s') s;
              rest := s'; groups := cs |}
  | None => None
  end.

(** [re.match(r, s)] (and [pattern.match(s)]): at the start only. *)
Definition match_ (fl : flags) (r : regex) (s : string) : option rmatch :=
  match_here fl r None s.

(** [re.search(r, s)]: the leftmost match. *)
Fixpoint search_from (fl : flags) (r : regex) (prev : option ascii)
         (s : string) : option rmatch :=
  match match_here fl r prev s with
  | Some m => Some m
  | None =>
      match s with
      | EmptyString => None
      | String c s' => search_from fl r (Some c) s'
      end
  end.

Definition search (fl : flags) (r : regex) (s : string) : option rmatch :=
  search_from fl r None s.

Definition is_some {A : Type} (o : option A) : bool :=
  match o with Some _ => true | None => false end.

(** [re.findall(r, s)]: the matches from left to right without overlap;
    [skip] counts the characters of the last match still to pass. *)
Fixpoint finditer_aux (fl : flags) (r : regex) (prev : option ascii)
         (skip : nat) (s : string) : list rmatch :=
  match skip with
  | S k =>
      match s with
      | EmptyString => []
      | String c s' => finditer_aux fl r (Some c) k s'
      end
  | O =>
      match match_here fl r prev s, s with
      | Some m, String c s' =>
          m :: finditer_aux fl r (Some c) (length (whole m) - 1) s'
      | Some m, EmptyString => [m]
      | None, String c s' => finditer_aux fl r (Some c) 0 s'
      | None, EmptyString => []
      end
  end.

Definition finditer (fl : flags) (r : regex) (s : string) : list rmatch :=
  finditer_aux fl r None 0 s.

(** [re.sub(r, repl, s)] with the replacement as a function of the match
    (a template with back-references is such a function). *)
Fixpoint sub_aux (fl : flags) (r : regex) (repl : rmatch -> string)
         (prev : option ascii) (skip : nat) (s : string) : string :=
  match skip with
  | S k =>
      match s with
      | EmptyString => EmptyString
      | String c s' => sub_aux fl r repl (Some c) k s'
      end
  | O =>
      match match_here fl r prev s, s with
      | Some m, String c s' =>
          match whole m with
          | EmptyString => repl m ++ String c (sub_aux fl r repl (Some c) 0 s')
          | String _ w => repl m ++ sub_aux fl r repl (Some c) (length w) s'
          end
      | Some m, EmptyString => repl m
      | None, String c s' => String c (sub_aux fl r repl (Some c) 0 s')
      | None, EmptyString => EmptyString
      end
  end.

Definition sub (fl : flags) (r : regex) (repl : rmatch -> string)
           (s : string) : string :=
  sub_aux fl r repl None 0 s.

(** Replacement templates: literal text and back-references [\i]. *)
Inductive piece : Set := T (s : string) | G (i : nat).

Fixpoint expand (t : list piece) (m : rmatch) : string :=
  match t with
  | [] => EmptyString
  | T s :: t' => s ++ expand t' m
  | G i :: t' => group i (groups m) ++ expand t' m
  end.

End Re.

(* ================================================================== *)
(** * core/constants.py and core/exceptions.py *)
(* ================================================================== *)

Module Constants.

(** [class QuestionType(Enum)] *)
Inductive QuestionType : Set :=
| ILLUSTRATION | EXERCISE | EXAMPLE | PRACTICE | OBJECTIVE | SUBJECTIVE.


Definition QuestionType_value (t : QuestionType) : string :=
  match t with
  | ILLUSTRATION => "illustration"
  | EXERCISE => "exercise"
  | EXAMPLE => "example"
  | PRACTICE => "practice"
  | OBJECTIVE => "objective"
  | SUBJECTIVE => "subjective"
  end.

(** [LATEX_DELIMITERS] *)
Definition LATEX_DELIMITERS : list (string * (string * string)) :=
  [ ("inline", ("$", "$"));
    ("display", ("$$", "$$"));
    ("equation", ("\begin{equation}", "\end{equation}"));
    ("align", ("\begin{align}", "\end{align}")) ].

(** [QUESTION_PATTERNS] *)
Definition QUESTION_PATTERNS : list Re.regex :=
  [ Re.seq [Re.Bol; Re.plus Re.digit; Re.chr "."];              (* ^\d+\. *)
    Re.seq [Re.Bol; Re.chr "Q"; Re.plus Re.digit];              (* ^Q\d+ *)
    Re.seq [Re.Bol; Re.lit "Example "; Re.plus Re.digit];       (* ^Example \d+ *)
    Re.seq [Re.Bol; Re.lit "Illustration "; Re.plus Re.digit];  (* ^Illustration \d+ *)
    Re.seq [Re.Bol; Re.lit "Exercise"];                         (* ^Exercise *)
    Re.seq [Re.Bol; Re.lit "Problem"] ].                        (* ^Problem *)

(** [MATH_SYMBOLS], in the order of the dictionary. *)
Definition MATH_SYMBOLS : list (string * string) :=
  [ ("α", "\alpha"); ("β", "\beta"); ("γ", "\gamma"); ("δ", "\delta");
    ("θ", "\theta"); ("λ", "\lambda"); ("μ", "\mu"); ("σ", "\sigma");
    ("φ", "\phi"); ("ω", "\omega"); ("Σ", "\sum"); ("∫", "\int");
    ("∞", "\infty"); ("√", "\sqrt"); ("≤", "\leq"); ("≥", "\geq");
    ("≠", "\neq"); ("≈", "\approx"); ("∈", "\in"); ("∉", "\notin");
    ("⊂", "\subset"); ("⊃", "\supset"); ("∪", "\cup"); ("∩", "\cap");
    ("∀", "\forall"); ("∃", "\exists") ].

(** The exceptions the modelled code raises, and any other exception
    it receives from a service or the database (the name of its class
    and its message). *)
Inductive exn : Set :=
| ExtractionError (msg : string)
| LLMError (msg : string)
| RetryError
| ZeroDivisionError
| OtherError (name msg : string).

(** A value a caller may pass where a [str] is expected. *)
Inductive pyobj : Set :=
| PyNone
| PyStr (s : string)
| PyInt (z : Z)
| PyBool (b : bool)
| PyBytes (b : string).

End Constants.

(* ================================================================== *)
(** * extractors/question_extractor.py *)
(* ================================================================== *)

Module QuestionExtractor.
Import Constants.

(** [@dataclass class Question] *)
Record Question : Set := {
  text : string;
  question_type : QuestionType;
  number : option string;
  page_number : option Z;
  confidence : float;
  metadata : option (list (string * string))
}.

(** [_compile_patterns]: every pattern is compiled with [re.MULTILINE]. *)
Definition question_patterns : list (Re.flags * Re.regex) :=
  map (fun pattern => (Re.MULTILINE, pattern)) QUESTION_PATTERNS.

(** [validate_source]: [isinstance(source, str) and len(source) > 0] *)
Definition validate_source (source : pyobj) : bool :=
  match source with
  | PyStr s => 0 <? length s
  | _ => false
  end.

(** [_is_question_start] *)
Definition _is_question_start (line : string) : bool :=
  let line := Str.strip line in
  if existsb (fun p => Re.is_some (Re.match_ (fst p) (snd p) line))
             question_patterns
  then true
  else if Re.is_some
            (Re.match_ Re.NOFLAGS
               (Re.seq [Re.Bol; Re.chr "("; Re.az; Re.chr ")"]) line)   (* ^\([a-z]\) *)
  then true
  else if Re.is_some
            (Re.match_ Re.NOFLAGS
               (Re.seq [Re.Bol; Re.plus (Re.oneof "IVX"); Re.chr "."]) line) (* ^[IVX]+\. *)
  then true
  else false.

(** The loop of [_split_into_blocks]: the state is [(blocks, current_block)]. *)
Definition split_step (st : list string * list string) (line : string)
  : list string * list string :=
  let (blocks, current_block) := st in
  if _is_question_start line then
    let blocks :=
      match current_block with
      | [] => blocks
      | _ => (blocks ++ [Str.join Str.NL current_block])%list
      end in
    (blocks, [line])
  else (blocks, (current_block ++ [line])%list).

(** [_split_into_blocks] *)
Definition _split_into_blocks (text : string) : list string :=
  let lines := Str.split Str.nl text in
  let (blocks, current_block) := fold_left split_step lines ([], []) in
  match current_block with
  | [] => blocks
  | _ => (blocks ++ [Str.join Str.NL current_block])%list
  end.

(** [_contains_math] *)
Definition math_indicators : list Re.regex :=
  [ Re.seq [Re.plus Re.digit; Re.oneof "+-*/"; Re.plus Re.digit];  (* \d+[\+\-\*/]\d+ *)
    Re.seq [Re.oneof "xy"; Re.chr "="];                            (* [xy]= *)
    Re.seq [Re.chr "\"; Re.plus Re.alpha];                         (* \\[a-zA-Z]+ *)
    Re.alts [Re.lit "∫"; Re.lit "∑"; Re.lit "∏"; Re.lit "√"];      (* [∫∑∏√] *)
    Re.chr "^";                                                    (* \^ *)
    Re.lit "_{";                                                   (* _{ *)
    Re.lit "\frac";                                                (* \\frac *)
    Re.lit "\sqrt";                                                (* \\sqrt *)
    Re.seq [Re.lit "P("; Re.plus (Re.noneof ")"); Re.chr ")"] ].   (* P\([^)]+\) *)

Definition _contains_math (text : string) : bool :=
  existsb (fun pattern => Re.is_some (Re.search Re.NOFLAGS pattern text))
          math_indicators.

(** [_is_question_block] *)
Definition question_indicators : list string :=
  [ "?"; "Find"; "Calculate"; "Prove"; "Show that"; "Determine"; "Evaluate";
    "Solve"; "If"; "When"; "What"; "Which"; "How"; "Why"; "Verify";
    "Derive"; "Explain"; "State"; "Define"; "Given" ].

Definition _is_question_block (block : string) : bool :=
  let block_lower := Str.lower block in
  if existsb (fun indicator => Str.contains (Str.lower indicator) block_lower)
             question_indicators
  then true
  else if _contains_math block then true
  else false.

(** [_clean_text] *)
Definition _clean_text (text : string) : string :=
  let text := Re.sub Re.NOFLAGS (Re.plus Re.space) (fun _ => " ") text in
  let text :=
    Re.sub Re.NOFLAGS (Re.seq [Re.lit "Page "; Re.plus Re.digit])
           (fun _ => "") text in
  let text :=
    Re.sub Re.IGNORECASE
           (Re.seq [Re.lit "RD SHARMA"; Re.LazyStar Re.dot; Re.lit "Class";
                    Re.LazyStar Re.dot; Re.plus Re.digit])    (* RD SHARMA.*?Class.*?\d+ *)
           (fun _ => "") text in
  Str.strip text.

(** [_determine_question_type] *)
Definition _determine_question_type (text : string) : QuestionType :=
  let text_lower := Str.lower text in
  if Str.contains "illustration" text_lower then ILLUSTRATION
  else if Str.contains "example" text_lower then EXAMPLE
  else if Str.contains "exercise" text_lower then EXERCISE
  else if Str.contains "objective" text_lower then OBJECTIVE
  else PRACTICE.

(** [_extract_question_number] *)
Definition number_patterns : list Re.regex :=
  [ Re.seq [Re.Bol; Re.Group 1 (Re.plus Re.digit); Re.chr "."];         (* ^(\d+)\. *)
    Re.seq [Re.Bol; Re.chr "Q"; Re.Group 1 (Re.plus Re.digit)];         (* ^Q(\d+) *)
    Re.seq [Re.Bol; Re.lit "Question "; Re.Group 1 (Re.plus Re.digit)]; (* ^Question (\d+) *)
    Re.seq [Re.Bol; Re.chr "("; Re.Group 1 Re.az; Re.chr ")"];          (* ^\(([a-z])\) *)
    Re.seq [Re.Bol; Re.Group 1 (Re.plus (Re.oneof "IVX")); Re.chr "."] ]. (* ^([IVX]+)\. *)

Fixpoint first_group (patterns : list Re.regex) (text : string) : option string :=
  match patterns with
  | [] => None
  | pattern :: rest =>
      match Re.search Re.NOFLAGS pattern text with
      | Some m => Some (Re.group 1 (Re.groups m))
      | None => first_group rest text
      end
  end.

Definition _extract_question_number (text : string) : option string :=
  first_group number_patterns text.

(** Truth value of an [Optional[str]]. *)
Definition truthy_opt (o : option string) : bool :=
  match o with Some s => Str.truthy s | None => false end.

(** [min(a, b)] on floats: [b] when [b < a], else [a]. *)
Definition py_min (a b : float) : float :=
  if PrimFloat.ltb b a then b else a.

(** [_calculate_confidence], in binary64 as Python evaluates it. *)
Definition question_keywords : list string :=
  ["find"; "prove"; "show"; "calculate"; "determine"].

Definition confidence_of (qmark math num kw : bool) : float :=
  let score := 0.5%float in
  let score := if qmark then (score + 0.2)%float else score in
  let score := if math then (score + 0.1)%float else score in
  let score := if num then (score + 0.1)%float else score in
  let score := if kw then (score + 0.1)%float else score in
  py_min score 1.0%float.

Definition _calculate_confidence (text : string) : float :=
  confidence_of
    (Str.contains "?" text)
    (_contains_math text)
    (truthy_opt (_extract_question_number text))
    (existsb (fun kw => Str.contains kw (Str.lower text)) question_keywords).

(** [_extract_question] *)
Definition _extract_question (block : string) : option Question :=
  let cleaned := _clean_text block in
  if negb (Str.truthy cleaned) then None
  else
    let question_type := _determine_question_type block in
    let number := _extract_question_number block in
    Some {| text := cleaned;
            question_type := question_type;
            number := number;
            page_number := None;
            confidence := _calculate_confidence block;
            metadata := None |}.

(** [BaseExtractor.postprocess] *)
Definition postprocess (extracted : list Question) : list Question := extracted.

(** The loop of [extract] over the blocks. *)
Definition extract_step (questions : list Question) (block : string)
  : list Question :=
  if _is_question_block block then
    match _extract_question block with
    | Some question => (questions ++ [question])%list
    | None => questions
    end
  else questions.

(** [extract] *)
Definition extract (source : pyobj) : exn + list Question :=
  if negb (validate_source source) then inl (ExtractionError "Invalid source text")
  else
    match source with
    | PyStr source =>
        let blocks := _split_into_blocks source in
        inr (postprocess (fold_left extract_step blocks []))
    | _ => inl (ExtractionError "Invalid source text")
    end.

(** A page dictionary, as far as [extract_from_pages] reads it: [None] is
    an absent key. *)
Record page : Set := { p_text : option pyobj; p_page_number : option Z }.

(** [page.get("text", "")] *)
Definition page_text_of (p : page) : pyobj :=
  match p_text p with
  | Some v => v
  | None => PyStr ""
  end.

(** [question.page_number = page_number] *)
Definition set_page_number (page_number : option Z) (question : Question)
  : Question :=
  {| text := text question;
     question_type := question_type question;
     number := number question;
     page_number := page_number;
     confidence := confidence question;
     metadata := metadata question |}.

(** The loop of [extract_from_pages]; an exception of [extract] ends it. *)
Fixpoint pages_loop (pages : list page) (all_questions : list Question)
  : exn + list Question :=
  match pages with
  | [] => inr all_questions
  | page :: rest =>
      let page_text := page_text_of page in
      let page_number := p_page_number page in
      match extract page_text with
      | inl e => inl e
      | inr questions =>
          let questions := map (set_page_number page_number) questions in
          pages_loop rest (all_questions ++ questions)%list
      end
  end.

(** [extract_from_pages] *)
Definition extract_from_pages (pages : list page) : exn + list Question :=
  pages_loop pages [].

End QuestionExtractor.

(* ================================================================== *)
(** * processors/latex_converter.py *)
(* ================================================================== *)

Module LaTeXConverter.
Import Constants.
Import Re.

Definition sub_tpl (r : regex) (t : list piece) (text : string) : string :=
  Re.sub NOFLAGS r (expand t) text.

Definition placeholder (i : nat) : string :=
  "__LATEX_CMD_" ++ Str.of_nat i ++ "__".

(** The loop [for i, cmd in enumerate(cmds): text = text.replace(a, b)]. *)
Fixpoint replace_each (f : nat -> string -> string * string) (i : nat)
         (cmds : list string) (text : string) : string :=
  match cmds with
  | [] => text
  | cmd :: rest =>
      let (old, new) := f i cmd in
      replace_each f (S i) rest (Str.replace old new text)
  end.

(** [_protect_existing_latex]: the new text and the value stored in
    [self._protected_commands]. *)
Definition _protect_existing_latex (text : string) : string * list string :=
  let latex_commands :=
    map whole
        (finditer NOFLAGS
           (seq [chr "\"; plus alpha;
                 Star (seq [chr "{"; Star (noneof "}"); chr "}"])])   (* \\[a-zA-Z]+(?:\{[^}]*\})* *)
           text) in
  (replace_each (fun i cmd => (cmd, placeholder i)) 0 latex_commands text,
   latex_commands).

(** [_convert_fractions] *)
Definition _convert_fractions (text : string) : string :=
  let text :=
    sub_tpl (seq [Group 1 (plus digit); Star space; chr "/"; Star space;
                  Group 2 (plus digit)])                    (* (\d+)\s*/\s*(\d+) *)
            [T "\frac{"; G 1; T "}{"; G 2; T "}"] text in
  let text :=
    sub_tpl (seq [chr "("; Group 1 (plus (noneof ")")); chr ")"; Star space;
                  chr "/"; Star space;
                  chr "("; Group 2 (plus (noneof ")")); chr ")"])
                                                (* \(([^)]+)\)\s*/\s*\(([^)]+)\) *)
            [T "\frac{"; G 1; T "}{"; G 2; T "}"] text in
  let text :=
    sub_tpl (seq [Group 1 (plus alpha); Star space; chr "/"; Star space;
                  Group 2 (plus alpha)])          (* ([a-zA-Z]+)\s*/\s*([a-zA-Z]+) *)
            [T "\frac{"; G 1; T "}{"; G 2; T "}"] text in
  text.

(** [_convert_exponents_subscripts] *)
Definition _convert_exponents_subscripts (text : string) : string :=
  let text :=
    sub_tpl (seq [Group 1 alnum; chr "^"; Group 2 (plus alnum)])
                                                (* ([a-zA-Z0-9])\^([a-zA-Z0-9]+) *)
            [G 1; T "^{"; G 2; T "}"] text in
  let text :=
    sub_tpl (seq [Group 1 alnum; chr "^";
                  Group 2 (seq [opt (oneof "+-"); plus digit])])
                                                (* ([a-zA-Z0-9])\^([+-]?\d+) *)
            [G 1; T "^{"; G 2; T "}"] text in
  let text :=
    sub_tpl (seq [Group 1 alpha; chr "_"; Group 2 (plus alnum)])
                                                (* ([a-zA-Z])_([a-zA-Z0-9]+) *)
            [G 1; T "_{"; G 2; T "}"] text in
  let text :=
    sub_tpl (seq [Group 1 alpha; chr "_"; Group 2 (plus digit)])
                                                (* ([a-zA-Z])_(\d+) *)
            [G 1; T "_{"; G 2; T "}"] text in
  let text :=
    sub_tpl (seq [WordB; Group 1 (oneof "xyz"); Star space; chr "^";
                  Star space; chr "2"; WordB])  (* \b([xyz])\s*\^\s*2\b *)
            [G 1; T "^2"] text in
  let text :=
    sub_tpl (seq [WordB; Group 1 (oneof "xyz"); Star space; chr "^";
                  Star space; chr "3"; WordB])  (* \b([xyz])\s*\^\s*3\b *)
            [G 1; T "^3"] text in
  text.

(** [_convert_roots] *)
Definition _convert_roots (text : string) : string :=
  let text :=
    sub_tpl (seq [lit "√"; Star space; Group 1 (plus alnum)])
                                                (* √\s*([a-zA-Z0-9]+) *)
            [T "\sqrt{"; G 1; T "}"] text in
  let text :=
    sub_tpl (seq [lit "sqrt"; Star space; chr "(";
                  Group 1 (plus (noneof ")")); chr ")"])
                                                (* sqrt\s*\(([^)]+)\) *)
            [T "\sqrt{"; G 1; T "}"] text in
  let text :=
    sub_tpl (seq [Group 1 (plus digit); lit "th"; plus space; lit "root";
                  plus space; lit "of"; plus space; Group 2 (plus alnum)])
                                  (* (\d+)th\s+root\s+of\s+([a-zA-Z0-9]+) *)
            [T "\sqrt["; G 1; T "]{"; G 2; T "}"] text in
  text.

(** [_convert_integrals_sums] *)
Definition _convert_integrals_sums (text : string) : string :=
  let text := sub_tpl (lit "∫") [T "\int"] text in
  let text :=
    sub_tpl (seq [lit "integral"; plus space; lit "from"; plus space;
                  Group 1 (plus alnum); plus space; lit "to"; plus space;
                  Group 2 (plus alnum)])
                 (* integral\s+from\s+([a-zA-Z0-9]+)\s+to\s+([a-zA-Z0-9]+) *)
            [T "\int_{"; G 1; T "}^{"; G 2; T "}"] text in
  let text := sub_tpl (lit "Σ") [T "\sum"] text in
  let text :=
    sub_tpl (seq [lit "sum"; plus space; lit "from"; plus space;
                  Group 1 (plus alnum); Star space; chr "="; Star space;
                  Group 2 (plus alnum); plus space; lit "to"; plus space;
                  Group 3 (plus alnum)])
       (* sum\s+from\s+([a-zA-Z0-9]+)\s*=\s*([a-zA-Z0-9]+)\s+to\s+([a-zA-Z0-9]+) *)
            [T "\sum_{"; G 1; T "="; G 2; T "}^{"; G 3; T "}"] text in
  let text := sub_tpl (lit "∏") [T "\prod"] text in
  text.

(** [_convert_matrices] with its [matrix_replacer] *)
Definition matrix_replacer (m : rmatch) : string :=
  let content := group 1 (groups m) in
  if Str.mem_char ";" content || Str.mem_char Str.nl content then
    let rows :=
      if Str.mem_char ";" content then Str.split ";" content
      else Str.split Str.nl content in
    let matrix_content := Str.join " \\ " rows in
    "\begin{bmatrix} " ++ matrix_content ++ " \end{bmatrix}"
  else whole m.

Definition _convert_matrices (text : string) : string :=
  Re.sub NOFLAGS
    (seq [chr "["; Star space; Group 1 (plus (noneof "]")); Star space;
          chr "]"])                                   (* \[\s*([^\]]+)\s*\] *)
    matrix_replacer text.

(** [_convert_probability] *)
Definition _convert_probability (text : string) : string :=
  let text :=
    sub_tpl (seq [chr "P"; Star space; chr "("; Group 1 (plus (noneof ")"));
                  chr ")"])                             (* P\s*\(([^)]+)\) *)
            [T "P("; G 1; T ")"] text in
  let text :=
    sub_tpl (seq [chr "P"; Star space; chr "("; Group 1 (plus (noneof "|"));
                  Star space; chr "|"; Star space;
                  Group 2 (plus (noneof ")")); chr ")"])
                                        (* P\s*\(([^|]+)\s*\|\s*([^)]+)\) *)
            [T "P("; G 1; T " \mid "; G 2; T ")"] text in
  let text :=
    sub_tpl (seq [chr "E"; Star space; chr "["; Group 1 (plus (noneof "]"));
                  chr "]"])                             (* E\s*\[([^\]]+)\] *)
            [T "\mathbb{E}["; G 1; T "]"] text in
  let text :=
    sub_tpl (seq [lit "Var"; Star space; chr "(";
                  Group 1 (plus (noneof ")")); chr ")"]) (* Var\s*\(([^)]+)\) *)
            [T "\text{Var}("; G 1; T ")"] text in
  let text :=
    sub_tpl (seq [chr "C"; Star space; chr "("; Star space;
                  Group 1 (plus alnum); Star space; chr ","; Star space;
                  Group 2 (plus alnum); Star space; chr ")"])
                  (* C\s*\(\s*([a-zA-Z0-9]+)\s*,\s*([a-zA-Z0-9]+)\s*\) *)
            [T "\binom{"; G 1; T "}{"; G 2; T "}"] text in
  let text := sub_tpl (lit "nCr") [T "\binom{n}{r}"] text in
  let text := sub_tpl (lit "nPr") [T "P_n^r"] text in
  text.

(** [_convert_math_expressions] *)
Definition _convert_math_expressions (text : string) : string :=
  let text := _convert_fractions text in
  let text := _convert_exponents_subscripts text in
  let text := _convert_roots text in
  let text := _convert_integrals_sums text in
  let text := _convert_matrices text in
  let text := _convert_probability text in
  text.

(** [_convert_special_characters]: only the symbol table is applied; the
    [special_chars] dictionary is built and never used. *)
Definition _convert_special_characters (text : string) : string :=
  fold_left (fun text kv => Str.replace (fst kv) (snd kv) text)
            MATH_SYMBOLS text.

Fixpoint lookup {A : Type} (k : string) (d : list (string * A)) : option A :=
  match d with
  | [] => None
  | (k', v) :: d' => if String.eqb k k' then Some v else lookup k d'
  end.

(** [_apply_math_mode] *)
Definition _apply_math_mode (text mode : string) : string :=
  match lookup mode LATEX_DELIMITERS with
  | Some (start, end_) =>
      if negb (Str.startswith start text) then start ++ text ++ end_
      else text
  | None => text
  end.

(** [_format_for_document]; [protected] is [self._protected_commands],
    [None] when the attribute is not set. *)
Definition _format_for_document (protected : option (list string))
           (text : string) : string :=
  let text :=
    match protected with
    | Some cmds => replace_each (fun i cmd => (placeholder i, cmd)) 0 cmds text
    | None => text
    end in
  Str.replace (Str.NL ++ Str.NL) (Str.NL ++ "\medskip" ++ Str.NL) text.

(** [convert] *)
Definition convert (text math_mode : string) : string :=
  let (text, protected) := _protect_existing_latex text in
  let text := _convert_math_expressions text in
  let text := _convert_special_characters text in
  let text := _apply_math_mode text math_mode in
  let text := _format_for_document (Some protected) text in
  text.

End LaTeXConverter.

(* ================================================================== *)
(** * processors/validator.py *)
(* ================================================================== *)

Module Validator.
Import Re.

(** The loop of [_check_balanced_braces]: [None] once the function has
    returned [False] from inside the loop, else the counter. *)
Fixpoint braces_loop (count : Z) (latex : string) : option Z :=
  match latex with
  | EmptyString => Some count
  | String char rest =>
      let count :=
        if Ascii.eqb char "{" then (count + 1)%Z
        else if Ascii.eqb char "}" then (count - 1)%Z
        else count in
      if (count <? 0)%Z then None else braces_loop count rest
  end.

(** [_check_balanced_braces] *)
Definition _check_balanced_braces (latex : string) : bool :=
  match braces_loop 0 latex with
  | None => false
  | Some count => (count =? 0)%Z
  end.

(** [_check_balanced_delimiters] *)
Definition _check_balanced_delimiters (latex : string) : bool :=
  let dollar_count :=
    (Z.of_nat (Str.count "$" latex) - Z.of_nat (Str.count "\$" latex))%Z in
  if negb (dollar_count mod 2 =? 0)%Z then false
  else if negb (Str.count "\[" latex =? Str.count "\]" latex) then false
  else if negb (Str.count "\(" latex =? Str.count "\)" latex) then false
  else
    let environments :=
      map (fun m => group 1 (groups m))
          (finditer NOFLAGS
             (seq [lit "\begin{"; Group 1 (plus (noneof "}")); chr "}"])
                                                    (* \\begin\{([^}]+)\} *)
             latex) in
    forallb
      (fun env =>
         Str.count ("\begin{" ++ env ++ "}") latex
         =? Str.count ("\end{" ++ env ++ "}") latex)
      environments.

(** [_check_common_latex_errors] *)
Definition _check_common_latex_errors (latex : string) : list string :=
  let errors := [] in
  let errors :=
    if is_some (search NOFLAGS (seq [chr "_"; Star dot; chr "_"]) latex)   (* _.*_ *)
       || is_some (search NOFLAGS (seq [chr "^"; Star dot; chr "^"]) latex) (* \^.*\^ *)
    then (errors ++ ["Double subscripts or superscripts detected"])%list
    else errors in
  let errors :=
    if is_some
         (search NOFLAGS
            (seq [chr "\";
                  alts [lit "frac"; lit "sqrt"; lit "sum"; lit "int"];
                  plus space; noneof "{"])     (* \\(frac|sqrt|sum|int)\s+[^{] *)
            latex)
    then (errors ++ ["Missing braces after command"])%list
    else errors in
  let errors :=
    if is_some (search NOFLAGS (seq [lit "\frac"; noneof "{"]) latex)  (* \\frac[^{] *)
    then (errors ++ ["Invalid fraction syntax"])%list
    else errors in
  errors.

(** [_check_invalid_commands] *)
Definition valid_commands : list string :=
  [ "frac"; "sqrt"; "sum"; "int"; "prod"; "lim";
    "sin"; "cos"; "tan"; "log"; "ln"; "exp";
    "alpha"; "beta"; "gamma"; "delta"; "theta";
    "lambda"; "mu"; "sigma"; "phi"; "omega";
    "infty"; "partial"; "nabla"; "times"; "cdot";
    "leq"; "geq"; "neq"; "approx"; "equiv";
    "subseteq"; "supseteq"; "in"; "notin";
    "cup"; "cap"; "emptyset"; "forall"; "exists";
    "rightarrow"; "leftarrow"; "Rightarrow"; "Leftarrow";
    "text"; "textbf"; "textit"; "mathbf"; "mathit";
    "begin"; "end"; "left"; "right"; "big"; "Big";
    "binom"; "choose"; "pmatrix"; "bmatrix"; "vmatrix" ].

Definition _check_invalid_commands (latex : string) : list string :=
  let commands :=
    map (fun m => group 1 (groups m))
        (finditer NOFLAGS (seq [chr "\"; Group 1 (plus alpha)]) latex) in  (* \\([a-zA-Z]+) *)
  filter (fun cmd => negb (existsb (String.eqb cmd) valid_commands)) commands.

(** [validate_latex] *)
Definition validate_latex (latex : string) : list string :=
  let errors := [] in
  let errors :=
    if negb (_check_balanced_braces latex)
    then (errors ++ ["Unbalanced braces in LaTeX"])%list else errors in
  let errors :=
    if negb (_check_balanced_delimiters latex)
    then (errors ++ ["Unbalanced math delimiters"])%list else errors in
  let common_errors := _check_common_latex_errors latex in
  let errors := (errors ++ common_errors)%list in
  let invalid_commands := _check_invalid_commands latex in
  let errors :=
    match invalid_commands with
    | [] => errors
    | _ =>
        let message := "Invalid LaTeX commands: " ++ Str.join ", " invalid_commands in
        (errors ++ [message])%list
    end in
  errors.

(** [_has_question_indicator] *)
Definition indicators : list string :=
  ["?"; "find"; "calculate"; "prove"; "show";
   "determine"; "evaluate"; "solve"; "verify"].

Definition _has_question_indicator (text : string) : bool :=
  let text_lower := Str.lower text in
  existsb (fun indicator => Str.contains indicator text_lower) indicators.

(** The question dictionary, as far as [validate_question] reads it:
    [None] is an absent key. *)
Record question_dict : Set := { q_text : option string; q_latex : option string }.

Definition get_truthy (o : option string) : bool :=
  match o with Some s => Str.truthy s | None => false end.
Definition get_default (o : option string) (d : string) : string :=
  match o with Some s => s | None => d end.

(** [validate_question] *)
Definition validate_question (question : question_dict) : bool * list string :=
  let errors := [] in
  let errors :=
    if negb (get_truthy (q_text question))
    then (errors ++ ["Question text is missing"])%list else errors in
  let errors :=
    if get_truthy (q_text question)
       && (Str.len (get_default (q_text question) "") <? 10)
    then (errors ++ ["Question text is too short"])%list else errors in
  let errors :=
    if negb (_has_question_indicator (get_default (q_text question) ""))
    then (errors ++ ["Text doesn't appear to be a question"])%list else errors in
  let errors :=
    if get_truthy (q_latex question)
    then (errors ++ validate_latex (get_default (q_latex question) ""))%list
    else errors in
  (match errors with [] => true | _ => false end, errors).

(** The report dictionary of [validate_batch]; an entry of ['errors'] is
    the pair of ['question_index'] and ['errors']. *)
Record report : Set := {
  total : nat;
  valid : nat;
  invalid : nat;
  errors : list (nat * list string);
  warnings : list string
}.

(** [float(n)] for a count; exact below 2^53. *)
Fixpoint float_of_nat (n : nat) : float :=
  match n with
  | O => 0%float
  | S k => (float_of_nat k + 1)%float
  end.

(** The loop of [validate_batch] from index [i] on. *)
Fixpoint batch_loop (i : nat) (questions : list question_dict) (r : report)
  : report :=
  match questions with
  | [] => r
  | question :: rest =>
      let (is_valid, errs) := validate_question question in
      let r :=
        if is_valid
        then {| total := total r; valid := valid r + 1; invalid := invalid r;
                errors := errors r; warnings := warnings r |}
        else {| total := total r; valid := valid r; invalid := invalid r + 1;
                errors := (errors r ++ [(i, errs)])%list;
                warnings := warnings r |} in
      batch_loop (S i) rest r
  end.

(** [validate_batch] *)
Definition validate_batch (questions : list question_dict) : report :=
  let r := {| total := List.length questions; valid := 0; invalid := 0;
              errors := []; warnings := [] |} in
  let r := batch_loop 0 questions r in
  if PrimFloat.ltb (float_of_nat (total r) * 0.2)%float (float_of_nat (invalid r))
  then {| total := total r; valid := valid r; invalid := invalid r;
          errors := errors r;
          warnings := (warnings r
                       ++ ["More than 20% of questions failed validation"])%list |}
  else r.

End Validator.

(* ================================================================== *)
(** * rag/embeddings.py *)
(* ================================================================== *)

Module EmbeddingGenerator.
Import Constants.

(** [np.ndarray] of floats and [np.zeros(n)]. *)
Definition ndarray : Set := list float.
Definition zeros (n : nat) : ndarray := repeat 0%float n.

(** [str(e)] *)
Definition exn_str (e : exn) : string :=
  match e with
  | ExtractionError msg => msg
  | LLMError msg => msg
  | RetryError => "RetryError"
  | ZeroDivisionError => "division by zero"
  | OtherError _ msg => msg
  end.

Section Service.
(** The remote embedding service: its state, and one call of
    [genai.embed_content(model, content, task_type)] followed by
    [np.array(result['embedding'])], which returns a vector or raises. *)
Variable world : Type.
Variable embed_content : string -> string -> world -> (exn + ndarray) * world.

(** Computations that read and change the service and may raise. *)
Definition M (A : Type) : Type := world -> (exn + A) * world.

Definition ret {A : Type} (a : A) : M A := fun w => (inr a, w).
Definition raise {A : Type} (e : exn) : M A := fun w => (inl e, w).
Definition bind {A B : Type} (m : M A) (f : A -> M B) : M B :=
  fun w =>
    match m w with
    | (inr a, w') => f a w'
    | (inl e, w') => (inl e, w')
    end.
(** [try: m  except Exception as e: h e] *)
Definition try_except {A : Type} (m : M A) (h : exn -> M A) : M A :=
  fun w =>
    match m w with
    | (inr a, w') => (inr a, w')
    | (inl e, w') => h e w'
    end.

(** The body of [generate_embedding], one attempt. *)
Definition generate_embedding_once (text : string) : M ndarray :=
  try_except
    (embed_content text "retrieval_document")
    (fun e => raise (LLMError ("Failed to generate embedding: " ++ exn_str e))).

(** [@retry(stop=stop_after_attempt(n), wait=...)]: the call is made
    again after a failure, and [RetryError] is raised once [n]
    attempts have failed.  The waits between attempts are not
    modelled. *)
Fixpoint retry {A : Type} (attempts : nat) (m : M A) : M A :=
  match attempts with
  | O => raise RetryError
  | S n => try_except m (fun _ => retry n m)
  end.

(** [generate_embedding] *)
Definition generate_embedding (text : string) : M ndarray :=
  retry 3 (generate_embedding_once text).

(** The loop of [generate_batch_embeddings]. *)
Fixpoint batch_loop (texts : list string) (embeddings : list ndarray)
  : M (list ndarray) :=
  match texts with
  | [] => ret embeddings
  | text :: rest =>
      bind
        (try_except
           (bind (generate_embedding text)
                 (fun embedding => ret (embeddings ++ [embedding])%list))
           (fun e => ret (embeddings ++ [zeros 768])%list))
        (fun embeddings => batch_loop rest embeddings)
  end.

(** [generate_batch_embeddings] *)
Definition generate_batch_embeddings (texts : list string)
  : M (list ndarray) :=
  batch_loop texts [].

End Service.

End EmbeddingGenerator.

(* ================================================================== *)
(** * rag/vector_store.py *)
(* ================================================================== *)

Module VectorStore.

Definition metadata : Set := list (string * string).

(** One call of [collection.add(documents, embeddings, metadatas, ids)].
    The collection is the external database: it is modelled by the
    calls it has received, in order. *)
Record add_call : Set := {
  add_documents_arg : list string;
  add_embeddings_arg : list (list float);
  add_metadatas_arg : list metadata;
  add_ids_arg : list string
}.

Definition collection : Set := list add_call.

(** [[f"doc_{i}" for i in range(n)]] *)
Definition default_ids (n : nat) : list string :=
  map (fun i => "doc_" ++ Str.of_nat i) (seq 0 n).

(** [add_documents], as far as the call it sends: the call is recorded
    as accepted.  [Database.add_documents] adds the answer of the
    database. *)
Definition add_documents
           (documents : list string)
           (embeddings : list EmbeddingGenerator.ndarray)
           (metadatas : option (list metadata))
           (ids : option (list string))
           (c : collection) : collection :=
  let ids :=
    match ids with
    | None => default_ids (List.length documents)
    | Some ids => ids
    end in
  let metadatas :=
    match metadatas with
    | None => repeat [] (List.length documents)
    | Some metadatas => metadatas
    end in
  let embeddings_list := map (fun emb => emb) embeddings in
  (c ++ [ {| add_documents_arg := documents;
             add_embeddings_arg := embeddings_list;
             add_metadatas_arg := metadatas;
             add_ids_arg := ids |} ])%list.

End VectorStore.

(* ================================================================== *)
(** * rag/retriever.py, the scores as exact rationals *)
(* ================================================================== *)

Module Retriever.
Import Constants.
Local Open Scope Q_scope.

(** A search result as [VectorStore.search] builds it. *)
Record hit : Set := {
  document : string;
  metadata : VectorStore.metadata;
  distance : Q;
  id : option string
}.

(** The same dictionary once [_rerank_results] has set
    ['keyword_score'] and ['combined_score']. *)
Record ranked : Set := {
  result : hit;
  keyword_score : Q;
  combined_score : Q
}.

(** [set(l)] for strings: the distinct elements. *)
Definition to_set (l : list string) : list string := nodup string_dec l.
(** [a & b] *)
Definition inter (a b : list string) : list string :=
  filter (fun w => existsb (String.eqb w) b) a.

Definition query_words (query : string) : list string :=
  to_set (Str.words (Str.lower query)).

Definition of_nat (n : nat) : Q := inject_Z (Z.of_nat n).

(** First loop: [overlap / len(query_words) if query_words else 0]. *)
Definition keyword_score_of (query_words : list string) (r : hit) : Q :=
  let doc_words := to_set (Str.words (Str.lower (document r))) in
  let overlap := List.length (inter query_words doc_words) in
  match query_words with
  | [] => 0
  | _ => of_nat overlap / of_nat (List.length query_words)
  end.

(** Second loop, one result: [1 / (1 + distance)] raises on a zero
    divisor. *)
Definition combine (r : hit) (keyword_score : Q) : exn + ranked :=
  if Qeq_bool (1 + distance r) 0 then inl ZeroDivisionError
  else
    let vector_score := 1 / (1 + distance r) in
    inr {| result := r;
           keyword_score := keyword_score;
           combined_score := (7 # 10) * vector_score + (3 # 10) * keyword_score |}.

Fixpoint combine_all (l : list (hit * Q)) : exn + list ranked :=
  match l with
  | [] => inr []
  | (r, k) :: l' =>
      match combine r k with
      | inl e => inl e
      | inr x =>
          match combine_all l' with
          | inl e => inl e
          | inr xs => inr (x :: xs)
          end
      end
  end.

(** [results.sort(key=lambda x: x['combined_score'], reverse=True)]: a
    stable sort, largest key first; equal keys keep their order. *)
Fixpoint insert (x : ranked) (l : list ranked) : list ranked :=
  match l with
  | [] => [x]
  | y :: l' =>
      if Qle_bool (combined_score y) (combined_score x) then x :: y :: l'
      else y :: insert x l'
  end.

Definition sort_desc (l : list ranked) : list ranked :=
  fold_right insert [] l.

(** [_rerank_results] *)
Definition _rerank_results (query : string) (results : list hit)
  : exn + list ranked :=
  let query_words := query_words query in
  let scored := map (fun r => (r, keyword_score_of query_words r)) results in
  match combine_all scored with
  | inl e => inl e
  | inr results => inr (sort_desc results)
  end.

Section Index.
(** The embedding service, as in [EmbeddingGenerator]. *)
Variable world : Type.
Variable embed_content :
  string -> string -> world -> (exn + EmbeddingGenerator.ndarray) * world.

(** [add_documents_to_index]: the embeddings of the batch, then
    [vector_store.add_documents(documents=..., embeddings=...,
    metadatas=...)], with no [ids]. *)
Definition add_documents_to_index
           (documents : list string)
           (metadatas : option (list VectorStore.metadata))
           (c : VectorStore.collection)
  : EmbeddingGenerator.M world VectorStore.collection :=
  EmbeddingGenerator.bind world
    (EmbeddingGenerator.generate_batch_embeddings world embed_content documents)
    (fun embeddings =>
       EmbeddingGenerator.ret world
         (VectorStore.add_documents documents embeddings metadatas None c)).

End Index.

End Retriever.

(* ================================================================== *)
(** * rag/retriever.py, the scores in binary64 *)
(* ================================================================== *)

Module Retriever64.
Import Constants.

(** A search result as [VectorStore.search] builds it; the distance is
    the float the database returns. *)
Record hit : Set := {
  document : string;
  metadata : VectorStore.metadata;
  distance : float;
  id : option string
}.

(** The same dictionary once [_rerank_results] has set
    ['keyword_score'] and ['combined_score']. *)
Record ranked : Set := {
  result : hit;
  keyword_score : float;
  combined_score : float
}.

(** [set(l)] for strings: the distinct elements. *)
Definition to_set (l : list string) : list string := nodup string_dec l.
(** [a & b] *)
Definition inter (a b : list string) : list string :=
  filter (fun w => existsb (String.eqb w) b) a.

(** The float of a count, as the true division [overlap /
    len(query_words)] converts its operands; exact below 2^53. *)
Fixpoint of_nat (n : nat) : float :=
  match n with
  | O => 0%float
  | S k => (of_nat k + 1)%float
  end.

Section Words.
(** [str.lower] and [str.split] (without argument), as Python provides
    them. *)
Variable lower : string -> string.
Variable split : string -> list string.

Definition query_words (query : string) : list string :=
  to_set (split (lower query)).

(** First loop: [overlap / len(query_words) if query_words else 0]. *)
Definition keyword_score_of (query_words : list string) (r : hit) : float :=
  let doc_words := to_set (split (lower (document r))) in
  let overlap := List.length (inter query_words doc_words) in
  match query_words with
  | [] => 0%float
  | _ => (of_nat overlap / of_nat (List.length query_words))%float
  end.

(** Second loop, one result: [1 / (1 + distance)] raises on a zero
    divisor. *)
Definition combine (r : hit) (keyword_score : float) : exn + ranked :=
  if (1 + distance r =? 0)%float then inl ZeroDivisionError
  else
    let vector_score := (1 / (1 + distance r))%float in
    inr {| result := r;
           keyword_score := keyword_score;
           combined_score := (0.7 * vector_score + 0.3 * keyword_score)%float |}.

Fixpoint combine_all (l : list (hit * float)) : exn + list ranked :=
  match l with
  | [] => inr []
  | (r, k) :: l' =>
      match combine r k with
      | inl e => inl e
      | inr x =>
          match combine_all l' with
          | inl e => inl e
          | inr xs => inr (x :: xs)
          end
      end
  end.

(** [results.sort(key=lambda x: x['combined_score'], reverse=True)]: the
    keys are compared with [<]; the sort is stable, largest key first,
    and equal keys keep their order.  A key that is NaN compares false
    with every key: what the sort does then is not modelled. *)
Fixpoint insert (x : ranked) (l : list ranked) : list ranked :=
  match l with
  | [] => [x]
  | y :: l' =>
      if (combined_score x <? combined_score y)%float then y :: insert x l'
      else x :: y :: l'
  end.

Definition sort_desc (l : list ranked) : list ranked :=
  fold_right insert [] l.

(** [_rerank_results] *)
Definition _rerank_results (query : string) (results : list hit)
  : exn + list ranked :=
  let query_words := query_words query in
  let scored := map (fun r => (r, keyword_score_of query_words r)) results in
  match combine_all scored with
  | inl e => inl e
  | inr results => inr (sort_desc results)
  end.

End Words.

End Retriever64.

(* ================================================================== *)
(** * rag/vector_store.py and rag/retriever.py, with the database *)
(* ================================================================== *)

Module Database.
Import Constants.

Section Database.
(** The embedding service, as in [EmbeddingGenerator]. *)
Variable world : Type.
Variable embed_content :
  string -> string -> world -> (exn + EmbeddingGenerator.ndarray) * world.

(** [self.collection.add(...)] is called without a guard, and the
    database can refuse a call (an empty batch, lists of different
    lengths, an identifier given twice).  [refuses c call] is the
    exception it raises on [call] after the calls [c] it has accepted,
    and [None] when it accepts the call. *)
Variable refuses : VectorStore.collection -> VectorStore.add_call -> option exn.

Definition collection_add (call : VectorStore.add_call)
           (c : VectorStore.collection) : exn + VectorStore.collection :=
  match refuses c call with
  | Some e => inl e
  | None => inr (c ++ [call])%list
  end.

(** [VectorStore.add_documents] *)
Definition add_documents
           (documents : list string)
           (embeddings : list EmbeddingGenerator.ndarray)
           (metadatas : option (list VectorStore.metadata))
           (ids : option (list string))
           (c : VectorStore.collection) : exn + VectorStore.collection :=
  let ids :=
    match ids with
    | None => VectorStore.default_ids (List.length documents)
    | Some ids => ids
    end in
  let metadatas :=
    match metadatas with
    | None => repeat [] (List.length documents)
    | Some metadatas => metadatas
    end in
  let embeddings_list := map (fun emb => emb) embeddings in
  collection_add
    {| VectorStore.add_documents_arg := documents;
       VectorStore.add_embeddings_arg := embeddings_list;
       VectorStore.add_metadatas_arg := metadatas;
       VectorStore.add_ids_arg := ids |} c.

(** [Retriever.add_documents_to_index] *)
Definition add_documents_to_index
           (documents : list string)
           (metadatas : option (list VectorStore.metadata))
           (c : VectorStore.collection)
  : EmbeddingGenerator.M world VectorStore.collection :=
  EmbeddingGenerator.bind world
    (EmbeddingGenerator.generate_batch_embeddings world embed_content documents)
    (fun embeddings w =>
       (add_documents documents embeddings metadatas None c, w)).

End Database.

End Database.

(* ================================================================== *)
(** * llm/response_parser.py and llm/prompts.py *)
(* ================================================================== *)

Module ResponseParser.
Import Re.

(** [parse_latex] *)
Definition explanation_phrases : list string :=
  ["here is"; "this is"; "the latex"; "converted"].

Definition parse_latex (response : string) : string :=
  let response :=
    Re.sub NOFLAGS (seq [lit "```latex"; opt (chr Str.nl)])   (* ```latex\n? *)
           (fun _ => "") response in
  let response :=
    Re.sub NOFLAGS (seq [lit "```"; opt (chr Str.nl)])        (* ```\n? *)
           (fun _ => "") response in
  let lines := Str.split Str.nl response in
  let latex_lines :=
    filter
      (fun line =>
         negb (existsb (fun phrase => Str.contains phrase (Str.lower line))
                       explanation_phrases))
      lines in
  Str.strip (Str.join Str.NL latex_lines).

(** [parse_question_type] *)
Definition valid_types : list string :=
  ["illustration"; "example"; "exercise"; "objective"; "subjective"].

Fixpoint first_type (types : list string) (response : string) : string :=
  match types with
  | [] => "unknown"
  | q_type :: rest =>
      if Str.contains q_type response then q_type else first_type rest response
  end.

Definition parse_question_type (response : string) : string :=
  let response := Str.lower (Str.strip response) in
  first_type valid_types response.

End ResponseParser.

Module PromptTemplates.

Definition lines (l : list string) : string := Str.join Str.NL l.

(** [get_latex_conversion_prompt] *)
Definition get_latex_conversion_prompt (text : string) : string :=
  lines
    [ "Convert the following mathematical question to proper LaTeX format.";
      "";
      "QUESTION:";
      text;
      "";
      "INSTRUCTIONS:";
      "1. Use proper LaTeX commands for all mathematical symbols";
      "2. Use \frac{} for fractions";
      "3. Use ^ for superscripts and _ for subscripts (with braces)";
      "4. Use \sqrt{} for square roots";
      "5. Use \int, \sum, \prod for integrals, sums, products";
      "6. Use \begin{equation} or $ for math mode";
      "7. Preserve the structure and meaning exactly";
      "";
      "OUTPUT:";
      "Return ONLY the LaTeX formatted question. Do not include any explanation." ].

(** [get_question_type_prompt] *)
Definition get_question_type_prompt (text : string) : string :=
  lines
    [ "Identify the type of this mathematical question from RD Sharma.";
      "";
      "QUESTION:";
      text;
      "";
      "TYPES:";
      "- illustration: Worked example with solution";
      "- example: Example problem";
      "- exercise: Practice exercise";
      "- objective: Multiple choice question";
      "- subjective: Descriptive answer question";
      "";
      "Return ONLY the type name, nothing else." ].

(** A word between double quotes. *)
Definition quoted (s : string) : string :=
  String (ascii_of_nat 34) (s ++ String (ascii_of_nat 34) EmptyString).

(** [get_question_extraction_prompt] *)
Definition get_question_extraction_prompt (text : string) : string :=
  lines
    [ "You are an expert at extracting mathematical questions from RD Sharma textbooks.";
      "";
      "Given the following text from RD Sharma Class 12, extract ALL questions (including examples, illustrations, and exercises).";
      "";
      "TEXT:";
      text;
      "";
      "INSTRUCTIONS:";
      "1. Extract ONLY questions, not theory or explanations";
      "2. Include question numbers if present";
      "3. Preserve all mathematical notation";
      "4. Include sub-parts (a), (b), (c) etc. if present";
      "5. Each question should be complete and self-contained";
      "";
      "OUTPUT FORMAT:";
      "Return a JSON array where each element has:";
      "- " ++ quoted "number" ++ ": Question number (if present)";
      "- " ++ quoted "text" ++ ": Complete question text";
      "- " ++ quoted "type" ++ ": Type of question (exercise/example/illustration)";
      "- " ++ quoted "parts" ++ ": Array of sub-parts if present";
      "";
      "IMPORTANT: Return ONLY the JSON array, no additional text." ].

End PromptTemplates.

(* ================================================================== *)
(** * llm/gemini_client.py *)
(* ================================================================== *)

Module GeminiClient.
Import Constants.
Import EmbeddingGenerator.

Section Client.
(** The remote model: its state, and one call of
    [self.model.generate_content(prompt)] followed by [response.text],
    which returns a text or raises. *)
Variable world : Type.
Variable generate_content : string -> world -> (exn + string) * world.

(** The parsed questions rest on [json.loads]: the type of a parsed
    question and [ResponseParser.parse_questions] are taken as they are. *)
Variable question_json : Type.
Variable parse_questions : string -> list question_json.

(** The body of [generate_response], one attempt. *)
Definition generate_response_once (prompt : string) : M world string :=
  try_except world
    (generate_content prompt)
    (fun e => raise world (LLMError ("Failed to generate response: " ++ exn_str e))).

(** [generate_response], under [@retry(stop=stop_after_attempt(3), ...)] *)
Definition generate_response (prompt : string) : M world string :=
  retry world 3 (generate_response_once prompt).

(** [extract_questions] *)
Definition extract_questions (text : string) : M world (list question_json) :=
  let prompt := PromptTemplates.get_question_extraction_prompt text in
  bind world (generate_response prompt)
       (fun response => ret world (parse_questions response)).

(** [convert_to_latex] *)
Definition convert_to_latex (text : string) : M world string :=
  let prompt := PromptTemplates.get_latex_conversion_prompt text in
  bind world (generate_response prompt)
       (fun response => ret world (ResponseParser.parse_latex response)).

(** [identify_question_type] *)
Definition identify_question_type (text : string) : M world string :=
  let prompt := PromptTemplates.get_question_type_prompt text in
  bind world (generate_response prompt)
       (fun response => ret world (ResponseParser.parse_question_type response)).

(** An entry of the list [batch_process] returns. *)
Inductive batch_result : Type :=
| Questions (questions : list question_json)
| Text (s : string)
| PyNone_.

(** The body of the [try] in [batch_process]. *)
Definition process_one (text operation : string) : M world batch_result :=
  if String.eqb operation "extract"
  then bind world (extract_questions text) (fun r => ret world (Questions r))
  else if String.eqb operation "latex"
  then bind world (convert_to_latex text) (fun r => ret world (Text r))
  else if String.eqb operation "type"
  then bind world (identify_question_type text) (fun r => ret world (Text r))
  else ret world PyNone_.

(** The loop of [batch_process]. *)
Fixpoint process_loop (texts : list string) (operation : string)
         (results : list batch_result) : M world (list batch_result) :=
  match texts with
  | [] => ret world results
  | text :: rest =>
      bind world
        (try_except world
           (bind world (process_one text operation)
                 (fun result => ret world (results ++ [result])%list))
           (fun e => ret world (results ++ [PyNone_])%list))
        (fun results => process_loop rest operation results)
  end.

(** [batch_process] *)
Definition batch_process (texts : list string) (operation : string)
  : M world (list batch_result) :=
  process_loop texts operation [].

End Client.

End GeminiClient.

(* ================================================================== *)
(** * rag/rag_pipeline.py *)
(* ================================================================== *)

Module RAGPipeline.
Import Constants.
Import EmbeddingGenerator.

(** The dictionary [_convert_questions_to_latex] builds for a question. *)
Record latex_question : Set := {
  original_text : string;
  latex : string;
  question_type : string;
  number : option string;
  page_number : option Z;
  confidence : float
}.

Section Pipeline.
Variable world : Type.
Variable generate_content : string -> world -> (exn + string) * world.

(** The loop of [_convert_questions_to_latex]: the service first, the
    rule-based converter when the service gives an empty text. *)
Fixpoint convert_loop (questions : list QuestionExtractor.Question)
         (latex_questions : list latex_question)
  : M world (list latex_question) :=
  match questions with
  | [] => ret world latex_questions
  | question :: rest =>
      bind world
        (GeminiClient.convert_to_latex world generate_content
           (QuestionExtractor.text question))
        (fun latex_text =>
           let latex_text :=
             if negb (Str.truthy latex_text)
             then LaTeXConverter.convert (QuestionExtractor.text question) "inline"
             else latex_text in
           convert_loop rest
             (latex_questions
              ++ [ {| original_text := QuestionExtractor.text question;
                      latex := latex_text;
                      question_type :=
                        QuestionType_value
                          (QuestionExtractor.question_type question);
                      number := QuestionExtractor.number question;
                      page_number := QuestionExtractor.page_number question;
                      confidence := QuestionExtractor.confidence question |} ])%list)
  end.

(** [_convert_questions_to_latex] *)
Definition _convert_questions_to_latex
           (questions : list QuestionExtractor.Question)
  : M world (list latex_question) :=
  convert_loop questions [].

End Pipeline.

End RAGPipeline.

(* ================================================================== *)
(** * The vocabulary of the statements *)
(* ================================================================== *)

(** ** Segmentation *)

(** The page text of the first scenario. *)
Definition scenario_text : string := "1. Find the value of x^2 + 1/2.".

(** The sum [0.5 + 0.1 + 0.1 + 0.1] as binary64 addition rounds it: the
    double just below [0.8]. *)
Definition below_08 : float := 0x1.9999999999999p-1%float.

Definition scenario_question : QuestionExtractor.Question :=
  {| QuestionExtractor.text := scenario_text;
     QuestionExtractor.question_type := Constants.PRACTICE;
     QuestionExtractor.number := Some "1";
     QuestionExtractor.page_number := None;
     QuestionExtractor.confidence := below_08;
     QuestionExtractor.metadata := None |}.


(** [sub] occurs in [s]. *)
Definition occurs (sub s : string) : Prop :=
  exists a b, s = (a ++ sub ++ b)%string.

(** The command verbs that make a block a question candidate; they are
    looked for in the lower-cased block. *)
Definition command_verbs : list string :=
  [ "find"; "calculate"; "prove"; "show that"; "determine"; "evaluate";
    "solve"; "if"; "when"; "what"; "which"; "how"; "why"; "verify";
    "derive"; "explain"; "state"; "define"; "given" ].

(** A question indicator: a question mark, a command verb in either
    case, or mathematical content. *)
Definition question_indicator (text : string) : Prop :=
  occurs "?" text
  \/ (exists verb, In verb command_verbs /\ occurs verb (Str.lower text))
  \/ QuestionExtractor._contains_math text = true.

(** The question built from a block that is kept. *)
Definition question_of (block : string) : QuestionExtractor.Question :=
  {| QuestionExtractor.text := QuestionExtractor._clean_text block;
     QuestionExtractor.question_type :=
       QuestionExtractor._determine_question_type block;
     QuestionExtractor.number :=
       QuestionExtractor._extract_question_number block;
     QuestionExtractor.page_number := None;
     QuestionExtractor.confidence :=
       QuestionExtractor._calculate_confidence block;
     QuestionExtractor.metadata := None |}.

(** ** Brace balance *)

(** The running counter of the specification: one more on an opening
    brace, one less on a closing brace, from [count] on. *)
Definition brace_step (count : Z) (char : ascii) : Z :=
  if Ascii.eqb char "{" then (count + 1)%Z
  else if Ascii.eqb char "}" then (count - 1)%Z
  else count.

Fixpoint running_counter (count : Z) (s : string) : Z :=
  match s with
  | EmptyString => count
  | String char rest => running_counter (brace_step count char) rest
  end.

(** The counter after the first [n] characters of [s], and at its end. *)
Definition counter_after (n : nat) (s : string) : Z :=
  running_counter 0 (Str.take n s).
Definition counter_at_end (s : string) : Z := running_counter 0 s.

Definition brace_message : string := "Unbalanced braces in LaTeX".

(** ** Batch embedding *)

Section BatchVocabulary.
Import Constants.
Import EmbeddingGenerator.

Variable world : Type.
Variable embed_content : string -> string -> world -> (exn + ndarray) * world.

(** One call of the service for a document: it raises, or it answers. *)
Definition fails_at (text : string) (w w' : world) : Prop :=
  exists e, embed_content text "retrieval_document" w = (inl e, w').
Definition answers_at (text : string) (w : world) (v : ndarray) (w' : world)
  : Prop :=
  embed_content text "retrieval_document" w = (inr v, w').

(** The retries are exhausted: three calls in a row fail. *)
Definition exhausted (text : string) (w w' : world) : Prop :=
  exists w1 w2,
    fails_at text w w1 /\ fails_at text w1 w2 /\ fails_at text w2 w'.

(** The text gets the embedding [v]: the first, second or third call
    answers [v], the calls before it having failed. *)
Definition answered (text : string) (w : world) (v : ndarray) (w' : world)
  : Prop :=
  answers_at text w v w'
  \/ (exists w1, fails_at text w w1 /\ answers_at text w1 v w')
  \/ (exists w1 w2,
         fails_at text w w1 /\ fails_at text w1 w2 /\ answers_at text w2 v w').

(** The vectors of a batch, text by text, from the state [w] of the
    service to the state [w']: the embedding of a text that is answered,
    the zero vector for a text whose retries are exhausted. *)
Inductive batch_items : world -> list string -> list ndarray -> world -> Prop :=
| items_nil (w : world) : batch_items w [] [] w
| items_answered (w w1 w2 : world) (text : string) (v : ndarray)
                 (texts : list string) (vs : list ndarray) :
    answered text w v w1 ->
    batch_items w1 texts vs w2 ->
    batch_items w (text :: texts) (v :: vs) w2
| items_exhausted (w w1 w2 : world) (text : string)
                  (texts : list string) (vs : list ndarray) :
    exhausted text w w1 ->
    batch_items w1 texts vs w2 ->
    batch_items w (text :: texts) (zeros 768 :: vs) w2.

(** The service fails on [text] whenever it is asked. *)
Definition always_fails (text : string) : Prop :=
  forall w, exists w', fails_at text w w'.

(** The service answers [v] on [text] whenever it is asked. *)
Definition always_returns (text : string) (v : ndarray) : Prop :=
  forall w, exists w', answers_at text w v w'.

(** What the batch holds at the position of [text]. *)
Definition item_ok (text : string) (v : ndarray) : Prop :=
  (always_fails text -> v = zeros 768)
  /\ (forall e, always_returns text e -> v = e).

End BatchVocabulary.

(** A service that counts its calls, fails on the text "bad" and answers
    the other texts with a one-element vector. *)
Definition counting_service (text task_type : string) (calls : nat)
  : (Constants.exn + EmbeddingGenerator.ndarray) * nat :=
  if String.eqb text "bad"
  then (inl (Constants.LLMError "service unavailable"), S calls)
  else (inr [match String.length text with
             | 1 => 1%float | 2 => 2%float | 4 => 4%float | _ => 5%float
             end], S calls).

(** ** Re-ranking *)

(** The number of distinct query words that occur in the document. *)
Definition lexical_overlap (query : string) (r : Retriever.hit) : nat :=
  List.length
    (Retriever.inter (Retriever.query_words query)
       (Retriever.to_set (Str.words (Str.lower (Retriever.document r))))).

(** The lexical term of the score: the overlap over the number of query
    words, and 0 for a query without words. *)
Definition lexical_term (query : string) (r : Retriever.hit) : Q :=
  match Retriever.query_words query with
  | [] => 0%Q
  | ws => (Retriever.of_nat (lexical_overlap query r)
           / Retriever.of_nat (List.length ws))%Q
  end.

(** The result dictionary with its two scores. *)
Definition scored (query : string) (r : Retriever.hit) : Retriever.ranked :=
  {| Retriever.result := r;
     Retriever.keyword_score :=
       Retriever.keyword_score_of (Retriever.query_words query) r;
     Retriever.combined_score :=
       ((7 # 10) * (1 / (1 + Retriever.distance r))
        + (3 # 10) * Retriever.keyword_score_of (Retriever.query_words query) r)%Q |}.

(** Largest combined score first. *)
Definition descending (l : list Retriever.ranked) : Prop :=
  StronglySorted
    (fun a b => (Retriever.combined_score b <= Retriever.combined_score a)%Q) l.

(** Two results at the same distance, the one without a query word first. *)
Definition hit_low : Retriever.hit :=
  {| Retriever.document := "nothing relevant here";
     Retriever.metadata := [];
     Retriever.distance := 1 # 2;
     Retriever.id := Some "doc_0" |}.

Definition hit_high : Retriever.hit :=
  {| Retriever.document := "Find x in the equation";
     Retriever.metadata := [];
     Retriever.distance := 1 # 2;
     Retriever.id := Some "doc_1" |}.

(** ** Re-ranking in binary64 *)

(** Exactly [n] strings have the property [P]. *)
Definition counts (P : string -> Prop) (n : nat) : Prop :=
  exists l, NoDup l /\ (forall w, In w l <-> P w) /\ List.length l = n.

Section RerankVocabulary.
Variable lower : string -> string.
Variable split : string -> list string.





(** The result dictionary once the two loops have set its scores. *)
Definition with_scores (query : string) (r : Retriever64.hit)
  : Retriever64.ranked :=
  let k := Retriever64.keyword_score_of lower split
             (Retriever64.query_words lower split query) r in
  {| Retriever64.result := r;
     Retriever64.keyword_score := k;
     Retriever64.combined_score :=
       (0.7 * (1 / (1 + Retriever64.distance r)) + 0.3 * k)%float |}.

End RerankVocabulary.

(** The divisor [1 + distance] of a result is zero. *)
Definition zero_divisor (r : Retriever64.hit) : bool :=
  (1 + Retriever64.distance r =? 0)%float.

(** No combined score is NaN. *)
Definition no_nan (l : list Retriever64.ranked) : Prop :=
  forall x, In x l -> PrimFloat.is_nan (Retriever64.combined_score x) = false.



(** The results whose combined score equals [k], in their order in the
    list. *)
Definition with_score64 (k : float) (l : list Retriever64.ranked)
  : list Retriever64.ranked :=
  filter (fun x => (Retriever64.combined_score x =? k)%float) l.

(** Two results at distance 0.5, the one without a query word first. *)
Definition hit_low64 : Retriever64.hit :=
  {| Retriever64.document := "nothing relevant here";
     Retriever64.metadata := [];
     Retriever64.distance := 0.5%float;
     Retriever64.id := Some "doc_0" |}.


(** The same two documents at the distance -(1 - 2^-53), the float just
    above -1: the divisor is 2^-53, the vector score 2^53, and 0.7 times
    it is so large that adding 0.3 does not change it. *)
Definition near_low : Retriever64.hit :=
  {| Retriever64.document := "nothing relevant here";
     Retriever64.metadata := [];
     Retriever64.distance := (-0x1.fffffffffffffp-1)%float;
     Retriever64.id := Some "doc_0" |}.

Definition near_high : Retriever64.hit :=
  {| Retriever64.document := "Find x in the equation";
     Retriever64.metadata := [];
     Retriever64.distance := (-0x1.fffffffffffffp-1)%float;
     Retriever64.id := Some "doc_1" |}.

(** Two results whose exact scores are both 8/15 and whose binary64
    scores differ in the last place. *)
Definition hit_third : Retriever64.hit :=
  {| Retriever64.document := "an unrelated remark";
     Retriever64.metadata := [];
     Retriever64.distance := 0.3125%float;
     Retriever64.id := Some "doc_0" |}.

Definition hit_two : Retriever64.hit :=
  {| Retriever64.document := "find x";
     Retriever64.metadata := [];
     Retriever64.distance := 2%float;
     Retriever64.id := Some "doc_1" |}.

(** ** Further vocabulary *)

(** The text begins, or ends, with a white-space character. *)
Definition starts_with_space (s : string) : bool :=
  match s with
  | String c _ => Str.is_space c
  | EmptyString => false
  end.

Fixpoint ends_with_space (s : string) : bool :=
  match s with
  | EmptyString => false
  | String c EmptyString => Str.is_space c
  | String _ rest => ends_with_space rest
  end.

(** The blocks the loop of [_split_into_blocks] has closed, together
    with the open one. *)
Definition flush (st : list string * list string) : list string :=
  match snd st with
  | [] => fst st
  | current_block => (fst st ++ [Str.join Str.NL current_block])%list
  end.

(** The results in increasing order of distance, as the store returns
    them. *)
Definition by_distance (l : list Retriever.hit) : Prop :=
  StronglySorted
    (fun a b => (Retriever.distance a <= Retriever.distance b)%Q) l.

(** A result farther away than [hit_low], without a query word either. *)
Definition hit_far : Retriever.hit :=
  {| Retriever.document := "an unrelated remark";
     Retriever.metadata := [];
     Retriever.distance := 3 # 2;
     Retriever.id := Some "doc_2" |}.

(** The questions [extract_from_pages] takes from one page: those of
    [extract] on the text of the page, with the page number set. *)
Definition per_page (p : QuestionExtractor.page) : list QuestionExtractor.Question :=
  match QuestionExtractor.extract (QuestionExtractor.page_text_of p) with
  | inr questions =>
      map (QuestionExtractor.set_page_number (QuestionExtractor.p_page_number p))
          questions
  | inl _ => []
  end.

(** The page has a text [extract] accepts: a non-empty string. *)
Definition readable (p : QuestionExtractor.page) : bool :=
  QuestionExtractor.validate_source (QuestionExtractor.page_text_of p).

(** The entries of ['errors'] for the questions from index [i] on. *)
Fixpoint invalid_from (i : nat) (questions : list Validator.question_dict)
  : list (nat * list string) :=
  match questions with
  | [] => []
  | question :: rest =>
      if fst (Validator.validate_question question)
      then invalid_from (S i) rest
      else (i, snd (Validator.validate_question question))
             :: invalid_from (S i) rest
  end.

(** ** The conversion service *)

(** The names [parse_question_type] can return. *)
Definition type_answers : list string :=
  (ResponseParser.valid_types ++ ["unknown"])%list.

(** The operations [batch_process] knows. *)
Definition known_operation (operation : string) : bool :=
  existsb (String.eqb operation) ["extract"; "latex"; "type"].

Section ServiceVocabulary.
Variable world : Type.
Variable generate_content : string -> world -> (Constants.exn + string) * world.

(** The remote model fails at every call. *)
Definition service_down : Prop :=
  forall prompt w, exists e w', generate_content prompt w = (inl e, w').

(** The remote model answers every call with a text in which
    [parse_latex] finds no markup. *)
Definition service_silent : Prop :=
  forall prompt w,
    exists response w',
      generate_content prompt w = (inr response, w')
      /\ ResponseParser.parse_latex response = ""%string.

(** The remote model answers every call at once, and its answer to a
    prompt is [answer_of prompt]. *)
Definition service_answers (answer_of : string -> string) : Prop :=
  forall prompt w,
    exists w', generate_content prompt w = (inr (answer_of prompt), w').

End ServiceVocabulary.

(** The entry of a question with the markup [markup]. *)
Definition entry_with (markup : string) (q : QuestionExtractor.Question)
  : RAGPipeline.latex_question :=
  {| RAGPipeline.original_text := QuestionExtractor.text q;
     RAGPipeline.latex := markup;
     RAGPipeline.question_type :=
       Constants.QuestionType_value (QuestionExtractor.question_type q);
     RAGPipeline.number := QuestionExtractor.number q;
     RAGPipeline.page_number := QuestionExtractor.page_number q;
     RAGPipeline.confidence := QuestionExtractor.confidence q |}.

(** The entry of a question converted by the rule-based converter. *)
Definition fallback_entry (q : QuestionExtractor.Question)
  : RAGPipeline.latex_question :=
  {| RAGPipeline.original_text := QuestionExtractor.text q;
     RAGPipeline.latex :=
       LaTeXConverter.convert (QuestionExtractor.text q) "inline";
     RAGPipeline.question_type :=
       Constants.QuestionType_value (QuestionExtractor.question_type q);
     RAGPipeline.number := QuestionExtractor.number q;
     RAGPipeline.page_number := QuestionExtractor.page_number q;
     RAGPipeline.confidence := QuestionExtractor.confidence q |}.

(** The entry of a question for which the model has answered
    [response]: the markup [parse_latex] finds in the answer is kept,
    and the rule-based converter is used when it finds none. *)
Definition entry_of_response (q : QuestionExtractor.Question)
           (response : string) : RAGPipeline.latex_question :=
  match ResponseParser.parse_latex response with
  | EmptyString => fallback_entry q
  | markup => entry_with markup q
  end.

Section ConversionVocabulary.
Variable world : Type.
Variable generate_content : string -> world -> (Constants.exn + string) * world.

(** The entries of the questions, question by question, from the state
    [w] of the model to the state [w']: each comes from the response
    [generate_response] returns to the conversion prompt of its text. *)
Inductive converted
  : world -> list QuestionExtractor.Question
    -> list RAGPipeline.latex_question -> world -> Prop :=
| converted_nil (w : world) : converted w [] [] w
| converted_cons (w w1 w2 : world) (q : QuestionExtractor.Question)
                 (questions : list QuestionExtractor.Question)
                 (response : string) (out : list RAGPipeline.latex_question) :
    GeminiClient.generate_response world generate_content
      (PromptTemplates.get_latex_conversion_prompt (QuestionExtractor.text q)) w
    = (inr response, w1) ->
    converted w1 questions out w2 ->
    converted w (q :: questions) (entry_of_response q response :: out) w2.

End ConversionVocabulary.

(** A service that answers every call with markup for x squared; the
    state counts the calls. *)
Definition markup_service (prompt : string) (calls : nat)
  : (Constants.exn + string) * nat :=
  (inr "$x^{2}$", S calls).

(** The entry carries the fields of the question. *)
Definition carried (q : QuestionExtractor.Question)
           (o : RAGPipeline.latex_question) : Prop :=
  RAGPipeline.original_text o = QuestionExtractor.text q
  /\ RAGPipeline.question_type o
     = Constants.QuestionType_value (QuestionExtractor.question_type q)
  /\ RAGPipeline.number o = QuestionExtractor.number q
  /\ RAGPipeline.page_number o = QuestionExtractor.page_number q
  /\ RAGPipeline.confidence o = QuestionExtractor.confidence q.

(** ** Markup without commands *)

(** The text holds no backslash. *)
Definition no_backslash (s : string) : bool := negb (Str.mem_char "\" s).

(** The patterns of the sources that begin with a backslash. *)
Definition backslash_first (r : Re.regex) : Prop :=
  (exists r1, r = Re.Seq (Re.chr "\") r1)
  \/ (exists r1 r2, r = Re.Seq (Re.Seq (Re.chr "\") r1) r2).

(** A service that gives no markup, and one that always fails; the state
    counts the calls. *)
Definition silent_service (prompt : string) (calls : nat)
  : (Constants.exn + string) * nat :=
  (inr "Here is the converted text", S calls).

Definition failing_service (prompt : string) (calls : nat)
  : (Constants.exn + string) * nat :=
  (inl (Constants.LLMError "quota exceeded"), S calls).

(** ** Blocks *)

(** A block opened by a block-start line: that line, then lines that
    start no block. *)
Definition opened_block (block : string) : Prop :=
  exists line rest,
    block = Str.join Str.NL (line :: rest)
    /\ QuestionExtractor._is_question_start line = true
    /\ Forall (fun l => QuestionExtractor._is_question_start l = false) rest.

(** The state of the loop of [_split_into_blocks] once a line has been
    read: the open block is not empty; either no block is closed yet, or
    the open block and all closed blocks but the first were opened by a
    block-start line. *)
Definition blocks_inv (st : list string * list string) : Prop :=
  snd st <> []
  /\ (fst st = []
      \/ (opened_block (Str.join Str.NL (snd st))
          /\ exists b0 bs, fst st = b0 :: bs /\ Forall opened_block bs)).

(* ================================================================== *)
(** * Scenarios evaluated on the code *)
(* ================================================================== *)

Lemma scenario_extract :
  QuestionExtractor.extract (Constants.PyStr scenario_text)
  = inr [scenario_question].
Proof. vm_compute. reflexivity. Qed.

Lemma scenario_signals :
  Str.contains "?" scenario_text = false
  /\ QuestionExtractor._contains_math scenario_text = true
  /\ QuestionExtractor._extract_question_number scenario_text = Some "1"
  /\ existsb (fun kw => Str.contains kw (Str.lower scenario_text))
             QuestionExtractor.question_keywords = true.
Proof. vm_compute. repeat split. Qed.

(** C1, as the code behaves: for the text "1. Find the value of x^2 + 1/2."
    [extract] returns exactly one question, numbered "1", of type practice;
    its confidence is the binary64 value of 0.5 + 0.1 + 0.1 + 0.1, which is
    0.7999999999999999, strictly below 0.8 and above 0.79. *)
Theorem C1_scenario_confidence_just_below_08 :
  exists q,
    QuestionExtractor.extract (Constants.PyStr scenario_text) = inr [q]
    /\ QuestionExtractor.number q = Some "1"
    /\ QuestionExtractor.question_type q = Constants.PRACTICE
    /\ QuestionExtractor.confidence q = (0.5 + 0.1 + 0.1 + 0.1)%float
    /\ QuestionExtractor.confidence q = below_08
    /\ PrimFloat.ltb (QuestionExtractor.confidence q) 0.8 = true
    /\ PrimFloat.ltb 0.79 (QuestionExtractor.confidence q) = true.
Proof.
  exists scenario_question. split; [exact scenario_extract|].
  vm_compute. repeat split.
Qed.

(** C1 as stated fails: no question returned for the scenario text has a
    confidence of at least 0.8. *)
Lemma C1_confidence_not_at_least_08 :
  ~ (exists q,
        QuestionExtractor.extract (Constants.PyStr scenario_text) = inr [q]
        /\ QuestionExtractor.number q = Some "1"
        /\ QuestionExtractor.question_type q = Constants.PRACTICE
        /\ PrimFloat.leb 0.8 (QuestionExtractor.confidence q) = true).
Proof.
  intros [q [Hq [_ [_ Hc]]]].
  rewrite scenario_extract in Hq.
  injection Hq as <-.
  vm_compute in Hc. discriminate Hc.
Qed.

(** C2, the code at the failing inputs.  The subscript rule of
    [_convert_exponents_subscripts] rewrites every placeholder, so
    [_format_for_document] never finds it again: a command protected in
    the first pass is lost in that pass and stays lost in the second
    (input "\alpha"); a command the first pass produced is lost in the
    second (input "1/2"); and in equation mode the delimiters themselves
    are lost and a second pair is put around the text (input "x"). *)
Theorem C2_second_pass_loses_protected_commands :
  LaTeXConverter._convert_exponents_subscripts (LaTeXConverter.placeholder 0)
  = "__LATEX_{CMD}_0__"
  /\ LaTeXConverter.convert "\alpha" "inline" = "$__LATEX_{CMD}_0__$"
  /\ LaTeXConverter.convert (LaTeXConverter.convert "\alpha" "inline") "inline"
     = "$__LATEX_{CMD}_0__$"
  /\ LaTeXConverter.convert "1/2" "inline" = "$\frac{1}{2}$"
  /\ LaTeXConverter.convert (LaTeXConverter.convert "1/2" "inline") "inline"
     = "$__LATEX_{CMD}_0__$"
  /\ LaTeXConverter.convert "x" "equation" = "\begin{equation}x\end{equation}"
  /\ LaTeXConverter.convert (LaTeXConverter.convert "x" "equation") "equation"
     = "\begin{equation}__LATEX_{CMD}_0__x__LATEX_{CMD}_1__\end{equation}".
Proof. vm_compute. repeat split. Qed.

(** C6: the check for missing braces after a command is the pattern
    [\\(frac|sqrt|sum|int)\s+[^{]], which asks for white space between
    the command and the character that is not a brace.  For "\frac12" it
    reports nothing: the only error is "Invalid fraction syntax", from
    the check that follows, and a question with this markup is invalid
    through that error alone.  For "\sqrt2", which no other check
    covers, the markup passes without any error.  With white space after
    the command the message is reported. *)
Theorem C6_missing_braces_not_reported_without_space :
  Validator.validate_latex "\frac12" = ["Invalid fraction syntax"]
  /\ ~ In "Missing braces after command" (Validator.validate_latex "\frac12")
  /\ (forall text,
        fst (Validator.validate_question
               {| Validator.q_text := text; Validator.q_latex := Some "\frac12" |})
        = false)
  /\ Validator.validate_latex "\sqrt2" = []
  /\ Validator.validate_latex "\frac 12"
     = ["Missing braces after command"; "Invalid fraction syntax"]
  /\ Validator.validate_latex "\sqrt 2" = ["Missing braces after command"].
Proof.
  assert (E : Validator.validate_latex "\frac12" = ["Invalid fraction syntax"])
    by (vm_compute; reflexivity).
  split; [exact E|]. split; [|split].
  - rewrite E. intros [H | []]. discriminate H.
  - intros text. unfold Validator.validate_question.
    cbn [Validator.q_latex Validator.q_text Validator.get_truthy
         Validator.get_default Str.truthy].
    rewrite E.
    match goal with
    | |- fst (match (?l ++ _)%list with _ => _ end, _) = _ =>
        destruct l; reflexivity
    end.
  - vm_compute. repeat split.
Qed.

(* ================================================================== *)
(** * Segmentation and classification *)
(* ================================================================== *)

Section Extractor.
Import Constants.
Import QuestionExtractor.

Lemma app_string_assoc (a b c : string) : ((a ++ b) ++ c = a ++ (b ++ c))%string.
Proof. induction a as [|x a IH]; simpl; [reflexivity|]. now rewrite IH. Qed.

Lemma app_string_nil_r (a : string) : (a ++ "")%string = a.
Proof. induction a as [|x a IH]; simpl; [reflexivity|]. now rewrite IH. Qed.

Lemma split_acc_not_nil (sep : ascii) (s cur : string) :
  Str.split_acc sep cur s <> [].
Proof.
  revert cur. induction s as [|c s IH]; intros cur; simpl.
  - discriminate.
  - destruct (Ascii.eqb c sep); [discriminate | apply IH].
Qed.

Lemma join_cons (sep x : string) (l : list string) :
  l <> [] -> Str.join sep (x :: l) = (x ++ sep ++ Str.join sep l)%string.
Proof. destruct l; [congruence | reflexivity]. Qed.

(** Joining the lines of a text with newlines gives the text back. *)
Lemma join_split_acc (s cur : string) :
  Str.join Str.NL (Str.split_acc Str.nl cur s) = (cur ++ s)%string.
Proof.
  revert cur. induction s as [|c s IH]; intros cur; simpl.
  - now rewrite app_string_nil_r.
  - destruct (Ascii.eqb c Str.nl) eqn:E.
    + apply Ascii.eqb_eq in E. subst c.
      rewrite join_cons by apply split_acc_not_nil.
      rewrite IH. reflexivity.
    + rewrite IH, app_string_assoc. reflexivity.
Qed.

Lemma join_split (s : string) : Str.join Str.NL (Str.split Str.nl s) = s.
Proof. unfold Str.split. now rewrite join_split_acc. Qed.

(** With no block-start line the loop only extends the current block. *)
Lemma fold_split_step_no_start (lines : list string) :
  (forall line, In line lines -> _is_question_start line = false) ->
  forall blocks current_block,
    fold_left split_step lines (blocks, current_block)
    = (blocks, (current_block ++ lines)%list).
Proof.
  induction lines as [|l lines IH]; intros H blocks cur; simpl.
  - now rewrite app_nil_r.
  - rewrite (H l) by (left; reflexivity).
    rewrite IH by (intros; apply H; right; assumption).
    now rewrite <- app_assoc.
Qed.

Lemma split_into_blocks_no_start (text : string) :
  (forall line, In line (Str.split Str.nl text) ->
                _is_question_start line = false) ->
  _split_into_blocks text = [text].
Proof.
  intros H. unfold _split_into_blocks.
  rewrite (fold_split_step_no_start _ H). simpl.
  destruct (Str.split Str.nl text) eqn:E.
  - exfalso. revert E. apply split_acc_not_nil.
  - rewrite <- E, join_split. reflexivity.
Qed.

(** Every question of the result comes from one block of the text. *)
Lemma fold_extract_step_in (blocks : list string) :
  forall acc q,
    In q (fold_left extract_step blocks acc) ->
    In q acc \/
    exists block, In block blocks /\ _is_question_block block = true
                  /\ _extract_question block = Some q.
Proof.
  induction blocks as [|b blocks IH]; intros acc q H; simpl in H.
  - now left.
  - apply IH in H. destruct H as [H | [b' [Hin Hb']]].
    + unfold extract_step in H.
      destruct (_is_question_block b) eqn:Eb; [|now left].
      destruct (_extract_question b) as [q'|] eqn:Eq; [|now left].
      apply in_app_or in H. destruct H as [H | [<- | []]]; [now left|].
      right. exists b. repeat split; [now left | assumption | assumption].
    + right. exists b'. split; [now right | assumption].
Qed.


(** The sixteen values [_calculate_confidence] can take all lie in [0, 1]. *)
(** Occurrence as [in] computes it. *)
Lemma startswith_prefix (p s : string) :
  Str.startswith p s = true <-> exists b, s = (p ++ b)%string.
Proof.
  revert s. induction p as [|c p IH]; intros s.
  - split; [intros _; now exists s | reflexivity].
  - destruct s as [|d s]; cbn [Str.startswith].
    + split; [discriminate | intros [b H]; discriminate H].
    + rewrite andb_true_iff, Ascii.eqb_eq, IH. split.
      * intros [-> [b ->]]. now exists b.
      * intros [b H]. injection H as -> ->. split; [reflexivity | now exists b].
Qed.

Lemma contains_occurs (p s : string) :
  Str.contains p s = true <-> occurs p s.
Proof.
  induction s as [|c s IH].
  - cbn [Str.contains]. rewrite orb_false_r, startswith_prefix. split.
    + intros [b H]. exists ""%string, b. exact H.
    + intros [a [b H]]. destruct a; [now exists b | discriminate H].
  - cbn [Str.contains]. rewrite orb_true_iff, startswith_prefix, IH. split.
    + intros [[b H] | [a [b H]]].
      * exists ""%string, b. exact H.
      * exists (String c a), b. now rewrite H.
    + intros [a [b H]]. destruct a as [|d a].
      * left. now exists b.
      * right. injection H as _ H. now exists a, b.
Qed.

(** Lower-casing neither adds nor removes a question mark. *)
Lemma contains_qmark_lower (s : string) :
  Str.contains "?" (Str.lower s) = Str.contains "?" s.
Proof.
  induction s as [|c s IH]; [reflexivity|].
  cbn [Str.lower Str.contains Str.startswith]. rewrite IH. f_equal.
  destruct c as [[] [] [] [] [] [] [] []]; reflexivity.
Qed.

(** The block test of the code holds exactly for the blocks with a
    question indicator. *)
Lemma is_question_block_indicator (block : string) :
  _is_question_block block = true <-> question_indicator block.
Proof.
  unfold _is_question_block, question_indicator.
  assert (L : map Str.lower question_indicators = "?"%string :: command_verbs)
    by reflexivity.
  assert (X : existsb (fun indicator =>
                         Str.contains (Str.lower indicator) (Str.lower block))
                      question_indicators = true
              <-> occurs "?" block
                  \/ exists verb, In verb command_verbs
                                  /\ occurs verb (Str.lower block)).
  { rewrite existsb_exists. split.
    - intros [x [Hx Hc]].
      assert (Hin : In (Str.lower x) ("?"%string :: command_verbs)).
      { rewrite <- L. now apply in_map. }
      destruct Hin as [Hq | Hv].
      + left. rewrite <- Hq, contains_qmark_lower in Hc.
        now apply contains_occurs.
      + right. exists (Str.lower x). split; [exact Hv|].
        now apply contains_occurs.
    - intros [Hq | [verb [Hv Ho]]].
      + exists "?"%string. split; [now left|].
        change (Str.lower "?") with "?"%string.
        rewrite contains_qmark_lower. now apply contains_occurs.
      + assert (Hin : In verb (map Str.lower question_indicators)).
        { rewrite L. now right. }
        apply in_map_iff in Hin. destruct Hin as [x [<- Hx]].
        exists x. split; [exact Hx|]. now apply contains_occurs. }
  destruct (existsb _ question_indicators).
  - split; [intros _ | reflexivity].
    destruct (proj1 X eq_refl) as [H | H]; [now left | right; now left].
  - destruct (_contains_math block).
    + split; [intros _; right; now right | reflexivity].
    + split; [discriminate|].
      intros [H | [H | H]]; [| |discriminate H].
      * apply (proj2 X). now left.
      * apply (proj2 X). now right.
Qed.



End Extractor.



(** C8: [extract] raises, and then raises [ExtractionError], exactly when
    the source is not a string or is the empty string; on every non-empty
    string it returns a list of questions. *)
Theorem C8_raises_iff_empty_or_not_str :
  forall source,
    (QuestionExtractor.extract source
       = inl (Constants.ExtractionError "Invalid source text")
     <-> ((forall s, source <> Constants.PyStr s) \/ source = Constants.PyStr ""))
    /\ (forall e, QuestionExtractor.extract source = inl e ->
                  e = Constants.ExtractionError "Invalid source text")
    /\ (forall s, source = Constants.PyStr s -> s <> ""%string ->
                  exists questions, QuestionExtractor.extract source = inr questions).
Proof.
  intros source. unfold QuestionExtractor.extract.
  destruct source as [| s | z | b | b]; simpl.
  all: try (split; [split; [intros _; left; intros s; discriminate | reflexivity]
                   | split; [intros e [= <-]; reflexivity | intros s; discriminate]]).
  destruct s as [|c s]; simpl.
  - split; [split; [intros _; now right | reflexivity]|].
    split; [intros e [= <-]; reflexivity|].
    intros s [= <-] H. now elim H.
  - split; [split|].
    + discriminate.
    + intros [H | H]; [now elim (H (String c s)) | discriminate H].
    + split; [discriminate|]. intros s' _ _. eexists. reflexivity.
Qed.

(** C9: for a non-empty text none of whose lines starts a block, the whole
    text is the single block, and [extract] returns at most one question:
    the question built from the text when the text holds a question
    indicator (a question mark, a command verb, or mathematical content)
    and its cleaned text is not empty, and the empty list otherwise. *)
Theorem C9_no_block_start_at_most_one_question :
  forall text,
    text <> ""%string ->
    (forall line, In line (Str.split Str.nl text) ->
                  QuestionExtractor._is_question_start line = false) ->
    QuestionExtractor._split_into_blocks text = [text]
    /\ (question_indicator text ->
        QuestionExtractor._clean_text text <> ""%string ->
        QuestionExtractor.extract (Constants.PyStr text)
        = inr [question_of text])
    /\ (~ question_indicator text
        \/ QuestionExtractor._clean_text text = ""%string ->
        QuestionExtractor.extract (Constants.PyStr text) = inr [])
    /\ (forall questions,
          QuestionExtractor.extract (Constants.PyStr text) = inr questions ->
          List.length questions <= 1).
Proof.
  intros text Hne Hlines.
  pose proof (split_into_blocks_no_start text Hlines) as Hb.
  assert (E : QuestionExtractor.extract (Constants.PyStr text)
              = inr (QuestionExtractor.extract_step [] text)).
  { unfold QuestionExtractor.extract. simpl.
    destruct text as [|c t]; [now elim Hne|]. simpl.
    rewrite Hb. reflexivity. }
  split; [exact Hb|]. rewrite E.
  unfold QuestionExtractor.extract_step, QuestionExtractor._extract_question.
  pose proof (is_question_block_indicator text) as B.
  destruct (QuestionExtractor._is_question_block text).
  - assert (Q : question_indicator text) by now apply B.
    destruct (QuestionExtractor._clean_text text) as [|c t] eqn:C;
      cbn [Str.truthy negb app].
    + split; [intros _ N; now elim N|]. split; [reflexivity|].
      intros qs [= <-]. simpl. lia.
    + split.
      * intros _ _. unfold question_of. now rewrite C.
      * split; [|intros qs [= <-]; simpl; lia].
        intros [N | N]; [now elim N | discriminate N].
  - assert (Q : ~ question_indicator text).
    { intros Q. apply B in Q. discriminate Q. }
    split; [intros Q'; now elim Q|]. split; [reflexivity|].
    intros qs [= <-]. simpl. lia.
Qed.

Lemma C9_witness :
  QuestionExtractor._split_into_blocks "Solve for y" = ["Solve for y"]
  /\ QuestionExtractor.extract (Constants.PyStr "Solve for y")
     = inr [question_of "Solve for y"].
Proof.
  assert (H1 : "Solve for y" <> ""%string) by discriminate.
  assert (H2 : forall line, In line (Str.split Str.nl "Solve for y") ->
                            QuestionExtractor._is_question_start line = false).
  { intros line H. vm_compute in H. destruct H as [<- | []]. vm_compute. reflexivity. }
  destruct (C9_no_block_start_at_most_one_question "Solve for y" H1 H2)
    as [Hb [He _]].
  split; [exact Hb|].
  apply He.
  - right. left. exists "solve"%string. split.
    + vm_compute. tauto.
    + exists ""%string, " for y"%string. reflexivity.
  - vm_compute. discriminate.
Defined.

(* ================================================================== *)
(** * Brace balance *)
(* ================================================================== *)

Section Braces.
Import Validator.
Local Open Scope Z_scope.

Lemma braces_loop_step (count : Z) (char : ascii) (rest : string) :
  braces_loop count (String char rest)
  = if brace_step count char <? 0 then None
    else braces_loop (brace_step count char) rest.
Proof.
  unfold brace_step. simpl.
  destruct (Ascii.eqb char "{"); [reflexivity|].
  destruct (Ascii.eqb char "}"); reflexivity.
Qed.

(** The loop returns early exactly when some prefix drives the counter
    below zero. *)
Lemma braces_loop_none (s : string) :
  forall count, 0 <= count ->
    (braces_loop count s = None
     <-> exists n, running_counter count (Str.take n s) < 0).
Proof.
  induction s as [|char rest IH]; intros count Hc.
  - simpl. split; [discriminate|].
    intros [n H]. destruct n; simpl in H; lia.
  - rewrite braces_loop_step.
    destruct (brace_step count char <? 0) eqn:E.
    + apply Z.ltb_lt in E. split; [intros _|reflexivity].
      exists 1%nat. simpl. destruct rest; simpl; exact E.
    + apply Z.ltb_ge in E. rewrite (IH _ E). split.
      * intros [n H]. exists (S n). exact H.
      * intros [n H]. destruct n as [|n]; simpl in H; [lia|].
        exists n. exact H.
Qed.

(** Otherwise it ends with the counter of the whole string. *)
Lemma braces_loop_some (s : string) :
  forall count z, braces_loop count s = Some z -> z = running_counter count s.
Proof.
  induction s as [|char rest IH]; intros count z.
  - simpl. now intros [= <-].
  - rewrite braces_loop_step.
    destruct (brace_step count char <? 0); [discriminate|].
    apply IH.
Qed.

Lemma check_balanced_braces_false (s : string) :
  _check_balanced_braces s = false
  <-> (exists n, counter_after n s < 0) \/ counter_at_end s <> 0.
Proof.
  unfold _check_balanced_braces, counter_after, counter_at_end.
  pose proof (braces_loop_none s 0 (Z.le_refl 0)) as HN.
  destruct (braces_loop 0 s) as [z|] eqn:E.
  - apply braces_loop_some in E. subst z. split.
    + intros H. right. now apply Z.eqb_neq.
    + intros [H | H]; [apply HN in H; discriminate H | now apply Z.eqb_neq].
  - split; [intros _; left; now apply HN | reflexivity].
Qed.

(** The other checks never produce the brace message. *)
Lemma common_errors_not_brace (s : string) :
  ~ In brace_message (_check_common_latex_errors s).
Proof.
  unfold _check_common_latex_errors, brace_message.
  repeat match goal with
         | |- context [if ?b then _ else _] => destruct b
         end; simpl; intros H;
    repeat (destruct H as [H | H]; [discriminate H|]); exact H.
Qed.

Lemma validate_latex_brace_message (s : string) :
  In brace_message (validate_latex s) <-> _check_balanced_braces s = false.
Proof.
  unfold validate_latex.
  destruct (_check_balanced_braces s); simpl.
  - split; [|discriminate]. intros H. exfalso.
    assert (R : forall tail,
               ~ In brace_message tail ->
               ~ In brace_message
                   ((if negb (_check_balanced_delimiters s)
                     then ["Unbalanced math delimiters"] else [])
                    ++ _check_common_latex_errors s ++ tail)%list).
    { intros tail Ht Hin.
      apply in_app_or in Hin. destruct Hin as [Hin | Hin].
      - destruct (negb (_check_balanced_delimiters s)); simpl in Hin;
          [destruct Hin as [Hin | []]; discriminate Hin | exact Hin].
      - apply in_app_or in Hin. destruct Hin as [Hin | Hin];
          [now apply (common_errors_not_brace s) | now apply Ht]. }
    destruct (_check_invalid_commands s) as [|cmd cmds].
    + apply (R []); [intros [] |]. now rewrite app_nil_r.
    + apply (R ["Invalid LaTeX commands: " ++ Str.join ", " (cmd :: cmds)]%string).
      * intros [Hin | []]. discriminate Hin.
      * now rewrite app_assoc.
  - split; [reflexivity|]. intros _.
    destruct (_check_invalid_commands s);
      destruct (negb (_check_balanced_delimiters s)); simpl;
      repeat (apply in_or_app; left); left; reflexivity.
Qed.

End Braces.

(** C3: for every string, the errors of [validate_latex] contain the
    brace-imbalance message exactly when the running brace counter is
    negative after some prefix of the string or is not zero at its end. *)
Theorem C3_brace_message_iff_counter :
  forall s,
    In brace_message (Validator.validate_latex s)
    <-> ((exists n, (counter_after n s < 0)%Z) \/ counter_at_end s <> 0%Z).
Proof.
  intros s. rewrite validate_latex_brace_message.
  apply check_balanced_braces_false.
Qed.

(* ================================================================== *)
(** * Batch embedding *)
(* ================================================================== *)

Section Batch.
Import Constants.
Import EmbeddingGenerator.

Variable world : Type.
Variable embed_content : string -> string -> world -> (exn + ndarray) * world.

Local Abbreviation once := (generate_embedding_once world embed_content).
Local Abbreviation embed := (generate_embedding world embed_content).
Local Abbreviation loop := (batch_loop world embed_content).
Local Abbreviation fails := (fails_at world embed_content).
Local Abbreviation answers := (answers_at world embed_content).

(** One attempt answers what the service answers, and raises when the
    service raises. *)
Lemma once_cases (text : string) (w : world) :
  (exists v w', once text w = (inr v, w') /\ answers text w v w')
  \/ (exists e w', once text w = (inl e, w') /\ fails text w w').
Proof.
  unfold generate_embedding_once, try_except, raise, answers_at, fails_at.
  destruct (embed_content text "retrieval_document" w) as [[e|v] w'].
  - right. eexists. exists w'. split; [reflexivity|]. now exists e.
  - left. exists v, w'. split; reflexivity.
Qed.

Lemma try_except_inr {A : Type} (m : M world A) (h : exn -> M world A)
      (w w' : world) (a : A) :
  m w = (inr a, w') -> try_except world m h w = (inr a, w').
Proof. intros E. unfold try_except. now rewrite E. Qed.

Lemma try_except_inl {A : Type} (m : M world A) (h : exn -> M world A)
      (w w' : world) (e : exn) :
  m w = (inl e, w') -> try_except world m h w = h e w'.
Proof. intros E. unfold try_except. now rewrite E. Qed.

(** [generate_embedding] returns the first answer among three attempts,
    and raises [RetryError] when the three of them fail. *)
Lemma generate_embedding_cases (text : string) (w : world) :
  (exists v w', embed text w = (inr v, w')
                /\ answered world embed_content text w v w')
  \/ (exists w', embed text w = (inl RetryError, w')
                 /\ exhausted world embed_content text w w').
Proof.
  unfold generate_embedding, answered, exhausted. simpl.
  destruct (once_cases text w) as [[v [w1 [E1 A1]]] | [e1 [w1 [E1 F1]]]].
  { left. exists v, w1. rewrite (try_except_inr _ _ _ _ _ E1).
    split; [reflexivity | now left]. }
  rewrite (try_except_inl _ _ _ _ _ E1).
  destruct (once_cases text w1) as [[v [w2 [E2 A2]]] | [e2 [w2 [E2 F2]]]].
  { left. exists v, w2. rewrite (try_except_inr _ _ _ _ _ E2).
    split; [reflexivity|]. right. left. now exists w1. }
  rewrite (try_except_inl _ _ _ _ _ E2).
  destruct (once_cases text w2) as [[v [w3 [E3 A3]]] | [e3 [w3 [E3 F3]]]].
  { left. exists v, w3. rewrite (try_except_inr _ _ _ _ _ E3).
    split; [reflexivity|]. right. right. now exists w1, w2. }
  rewrite (try_except_inl _ _ _ _ _ E3).
  right. exists w3. split; [reflexivity|]. now exists w1, w2.
Qed.

Lemma fails_not_answers (text : string) (w w1 w2 : world) (v : ndarray) :
  fails text w w1 -> answers text w v w2 -> False.
Proof.
  unfold fails_at, answers_at. intros [e F] A. rewrite F in A. discriminate A.
Qed.

Lemma answers_unique (text : string) (w w1 w2 : world) (v1 v2 : ndarray) :
  answers text w v1 w1 -> answers text w v2 w2 -> v1 = v2.
Proof.
  unfold answers_at. intros A1 A2. rewrite A1 in A2. now injection A2.
Qed.

(** A text the service always fails on is never answered, and one it
    always answers gets that answer at the first attempt. *)
Lemma answered_item_ok (text : string) (w w' : world) (v : ndarray) :
  answered world embed_content text w v w' ->
  item_ok world embed_content text v.
Proof.
  intros A. split.
  - intros F. exfalso.
    destruct A as [A | [[w1 [_ A]] | [w1 [w2 [_ [_ A]]]]]].
    + destruct (F w) as [w0 F0]. exact (fails_not_answers _ _ _ _ _ F0 A).
    + destruct (F w1) as [w0 F0]. exact (fails_not_answers _ _ _ _ _ F0 A).
    + destruct (F w2) as [w0 F0]. exact (fails_not_answers _ _ _ _ _ F0 A).
  - intros e R.
    destruct A as [A | [[w1 [_ A]] | [w1 [w2 [_ [_ A]]]]]].
    + destruct (R w) as [w0 R0]. exact (answers_unique _ _ _ _ _ _ A R0).
    + destruct (R w1) as [w0 R0]. exact (answers_unique _ _ _ _ _ _ A R0).
    + destruct (R w2) as [w0 R0]. exact (answers_unique _ _ _ _ _ _ A R0).
Qed.

Lemma exhausted_item_ok (text : string) (w w' : world) :
  exhausted world embed_content text w w' ->
  item_ok world embed_content text (zeros 768).
Proof.
  intros [w1 [w2 [F1 _]]]. split; [reflexivity|].
  intros e R. exfalso.
  destruct (R w) as [w0 R0]. exact (fails_not_answers _ _ _ _ _ F1 R0).
Qed.

Lemma batch_items_item_ok (texts : list string) :
  forall w vs w',
    batch_items world embed_content w texts vs w' ->
    Forall2 (item_ok world embed_content) texts vs.
Proof.
  intros w vs w' H. induction H as [w | w w1 w2 text v texts vs A _ IH
                                       | w w1 w2 text texts vs X _ IH].
  - constructor.
  - constructor; [exact (answered_item_ok _ _ _ _ A) | exact IH].
  - constructor; [exact (exhausted_item_ok _ _ _ X) | exact IH].
Qed.

(** One round of the loop: the call, with its fallback. *)
Lemma round_answered (text : string) (acc : list ndarray) (w w1 : world)
      (v : ndarray) :
  embed text w = (inr v, w1) ->
  try_except world
    (bind world (embed text)
          (fun embedding => ret world (acc ++ [embedding])%list))
    (fun _ => ret world (acc ++ [zeros 768])%list) w
  = (inr (acc ++ [v])%list, w1).
Proof. intros E. unfold try_except, bind, ret. now rewrite E. Qed.

Lemma round_exhausted (text : string) (acc : list ndarray) (w w1 : world)
      (e : exn) :
  embed text w = (inl e, w1) ->
  try_except world
    (bind world (embed text)
          (fun embedding => ret world (acc ++ [embedding])%list))
    (fun _ => ret world (acc ++ [zeros 768])%list) w
  = (inr (acc ++ [zeros 768])%list, w1).
Proof. intros E. unfold try_except, bind, ret. now rewrite E. Qed.

(** The loop ends normally, whatever the service does. *)
Lemma batch_loop_total (texts : list string) :
  forall acc w,
    exists vs w',
      loop texts acc w = (inr (acc ++ vs)%list, w')
      /\ batch_items world embed_content w texts vs w'.
Proof.
  induction texts as [|text rest IH]; intros acc w.
  - exists [], w. simpl. unfold ret. rewrite app_nil_r.
    split; [reflexivity | constructor].
  - simpl. unfold bind at 1.
    destruct (generate_embedding_cases text w)
      as [[v [w1 [E A]]] | [w1 [E X]]].
    + rewrite (round_answered text acc _ _ _ E).
      destruct (IH (acc ++ [v])%list w1) as [vs [w2 [E2 B]]].
      exists (v :: vs), w2. rewrite E2, <- app_assoc.
      split; [reflexivity | now apply items_answered with w1].
    + rewrite (round_exhausted text acc _ _ _ E).
      destruct (IH (acc ++ [zeros 768])%list w1) as [vs [w2 [E2 B]]].
      exists (zeros 768 :: vs), w2. rewrite E2, <- app_assoc.
      split; [reflexivity | now apply items_exhausted with w1].
Qed.

Lemma batch_items_length (texts : list string) :
  forall w vs w',
    batch_items world embed_content w texts vs w' ->
    List.length vs = List.length texts.
Proof.
  intros w vs w' H. induction H; simpl; congruence.
Qed.

(** C5: for every list of texts, every embedding service and every state
    of it, [generate_batch_embeddings] returns (it raises nothing) one
    vector per text.  Text by text, the vector is the embedding the
    service answered at the first, second or third attempt, or the zero
    vector of length 768 when the three attempts failed; so it is the
    zero vector for a text the service fails on at every call, and the
    service's embedding for a text it always answers. *)
Theorem C5_batch_one_vector_per_text_no_exception :
  forall texts w,
    exists vectors w',
      generate_batch_embeddings world embed_content texts w = (inr vectors, w')
      /\ List.length vectors = List.length texts
      /\ batch_items world embed_content w texts vectors w'
      /\ Forall2 (item_ok world embed_content) texts vectors.
Proof.
  intros texts w.
  destruct (batch_loop_total texts [] w) as [vs [w' [E H]]].
  exists vs, w'. split; [exact E|]. split; [|split].
  - exact (batch_items_length _ _ _ _ H).
  - exact H.
  - exact (batch_items_item_ok _ _ _ _ H).
Qed.

End Batch.

(** The scenario of C5: the batch of five gives five vectors, the third
    the zero vector, after seven calls (three of them the attempts on
    "bad"). *)
Example batch_scenario_five_items :
  EmbeddingGenerator.generate_batch_embeddings nat counting_service
    ["a"; "bb"; "bad"; "cccc"; "ddddd"] 0
  = (inr [[1%float]; [2%float]; EmbeddingGenerator.zeros 768;
          [4%float]; [5%float]], 7).
Proof. vm_compute. reflexivity. Qed.

(* ================================================================== *)
(** * Default document identifiers *)
(* ================================================================== *)

Section Identifiers.
Import VectorStore.

Lemma to_uint_not_nil (n : nat) : Nat.to_uint n <> Decimal.Nil.
Proof.
  rewrite <- (DecimalNat.Unsigned.of_to n) at 1.
  rewrite DecimalNat.Unsigned.to_of.
  apply DecimalFacts.unorm_nonnil.
Qed.

Lemma of_nat_inj (i j : nat) : Str.of_nat i = Str.of_nat j -> i = j.
Proof.
  unfold Str.of_nat. intros H.
  apply DecimalNat.Unsigned.to_uint_inj.
  pose proof (NilZero.usu _ (to_uint_not_nil i)) as Hi.
  pose proof (NilZero.usu _ (to_uint_not_nil j)) as Hj.
  rewrite H, Hj in Hi. now injection Hi.
Qed.

Lemma default_ids_length (n : nat) : List.length (default_ids n) = n.
Proof. unfold default_ids. now rewrite length_map, length_seq. Qed.

Lemma default_ids_nth (n i : nat) :
  i < n -> nth_error (default_ids n) i = Some ("doc_" ++ Str.of_nat i)%string.
Proof.
  intros H. unfold default_ids.
  rewrite nth_error_map, nth_error_seq.
  apply Nat.ltb_lt in H. rewrite H. reflexivity.
Qed.

Lemma default_ids_NoDup (n : nat) : NoDup (default_ids n).
Proof.
  unfold default_ids. apply Finite.Injective_map_NoDup; [|apply seq_NoDup].
  intros i j H. simpl in H. injection H as H. now apply of_nat_inj.
Qed.

End Identifiers.

(** C10: without explicit ids, [add_documents] sends to the collection the
    identifiers "doc_0" ... "doc_{n-1}" for its n documents, whatever the
    documents are: the identifier at position i is "doc_i", they are
    distinct within one call, and two calls in a row, each with at least
    one document, both send "doc_0" as the identifier of their first
    document.  [add_documents_to_index], through which the pipeline
    indexes the questions of a page, calls it without ids. *)
Theorem C10_default_ids_repeat_across_calls :
  (forall documents embeddings metadatas c,
      exists call,
        VectorStore.add_documents documents embeddings metadatas None c
        = (c ++ [call])%list
        /\ VectorStore.add_documents_arg call = documents
        /\ VectorStore.add_ids_arg call
           = VectorStore.default_ids (List.length documents)
        /\ List.length (VectorStore.add_ids_arg call) = List.length documents
        /\ NoDup (VectorStore.add_ids_arg call)
        /\ forall i, i < List.length documents ->
                     nth_error (VectorStore.add_ids_arg call) i
                     = Some ("doc_" ++ Str.of_nat i)%string)
  /\ (forall d1 ds1 e1 m1 d2 ds2 e2 m2 c,
        exists call1 call2,
          VectorStore.add_documents (d2 :: ds2) e2 m2 None
            (VectorStore.add_documents (d1 :: ds1) e1 m1 None c)
          = (c ++ [call1; call2])%list
          /\ VectorStore.add_documents_arg call1 = d1 :: ds1
          /\ VectorStore.add_documents_arg call2 = d2 :: ds2
          /\ nth_error (VectorStore.add_ids_arg call1) 0 = Some "doc_0"
          /\ nth_error (VectorStore.add_ids_arg call2) 0 = Some "doc_0")
  /\ (forall (world : Type) embed_content documents metadatas c (w : world),
        exists call w',
          Retriever.add_documents_to_index world embed_content
            documents metadatas c w
          = (inr (c ++ [call])%list, w')
          /\ VectorStore.add_documents_arg call = documents
          /\ VectorStore.add_ids_arg call
             = VectorStore.default_ids (List.length documents)).
Proof.
  split; [|split].
  - intros documents embeddings metadatas c.
    eexists. split; [reflexivity|]. simpl.
    split; [reflexivity|]. split; [reflexivity|].
    split; [apply default_ids_length|].
    split; [apply default_ids_NoDup|].
    intros i H. now apply default_ids_nth.
  - intros d1 ds1 e1 m1 d2 ds2 e2 m2 c.
    eexists. eexists. unfold VectorStore.add_documents.
    rewrite <- app_assoc. simpl.
    split; [reflexivity|]. simpl. repeat split.
  - intros world embed_content documents metadatas c w.
    destruct (batch_loop_total world embed_content documents [] w)
      as [vs [w' [E _]]].
    eexists. exists w'.
    unfold Retriever.add_documents_to_index, EmbeddingGenerator.bind,
      EmbeddingGenerator.generate_batch_embeddings.
    rewrite E. simpl. unfold EmbeddingGenerator.ret.
    split; [reflexivity|]. split; reflexivity.
Qed.

(* ================================================================== *)
(** * Re-ranking *)
(* ================================================================== *)

Section Rerank.
Import Constants.
Import Retriever.
Local Open Scope Q_scope.

Lemma keyword_score_is_lexical_term (query : string) (r : hit) :
  keyword_score_of (query_words query) r = lexical_term query r.
Proof.
  unfold keyword_score_of, lexical_term, lexical_overlap.
  destruct (query_words query); reflexivity.
Qed.

Lemma insert_perm (x : ranked) (l : list ranked) :
  Permutation (x :: l) (insert x l).
Proof.
  induction l as [|y l IH]; simpl; [reflexivity|].
  destruct (Qle_bool (combined_score y) (combined_score x)); [reflexivity|].
  rewrite perm_swap. now constructor.
Qed.

Lemma sort_desc_perm (l : list ranked) : Permutation l (sort_desc l).
Proof.
  induction l as [|x l IH]; simpl; [constructor|].
  rewrite <- insert_perm. now constructor.
Qed.

Lemma insert_descending (x : ranked) (l : list ranked) :
  descending l -> descending (insert x l).
Proof.
  unfold descending. induction l as [|y l IH]; intros H; simpl.
  - constructor; constructor.
  - apply StronglySorted_inv in H. destruct H as [Hl Hy].
    destruct (Qle_bool (combined_score y) (combined_score x)) eqn:E.
    + apply Qle_bool_iff in E. constructor.
      * constructor; assumption.
      * constructor; [exact E|].
        apply Forall_forall. intros z Hz.
        rewrite Forall_forall in Hy. apply Qle_trans with (combined_score y); auto.
    + constructor; [now apply IH|].
      apply (Permutation_Forall (insert_perm x l)).
      constructor; [|exact Hy].
      apply Qlt_le_weak, Qnot_le_lt. intros C.
      apply Qle_bool_iff in C. congruence.
Qed.

Lemma sort_desc_descending (l : list ranked) : descending (sort_desc l).
Proof.
  induction l as [|x l IH]; simpl; [constructor|].
  now apply insert_descending.
Qed.

(** The second loop returns the scored results unless a divisor is 0. *)
Lemma combine_all_scored (query : string) (results : list hit) :
  (forall r, In r results -> ~ distance r == -1) ->
  combine_all
    (map (fun r => (r, keyword_score_of (query_words query) r)) results)
  = inr (map (scored query) results).
Proof.
  induction results as [|r results IH]; intros H; simpl; [reflexivity|].
  unfold combine.
  destruct (Qeq_bool (1 + distance r) 0) eqn:E.
  - apply Qeq_bool_iff in E. exfalso. apply (H r); [now left|].
    lra.
  - rewrite IH by (intros; apply H; now right). reflexivity.
Qed.

Lemma of_nat_lt (a b : nat) : (a < b)%nat -> of_nat a < of_nat b.
Proof. intros H. unfold of_nat, Qlt. simpl. lia. Qed.

End Rerank.

Example rerank_two_hits :
  Retriever._rerank_results "find x" [hit_low; hit_high]
  = inr [scored "find x" hit_high; scored "find x" hit_low].
Proof. vm_compute. reflexivity. Qed.

(** A result at distance -1 makes the divisor zero: the call raises. *)
Example rerank_zero_division :
  Retriever._rerank_results "find x"
    [hit_low;
     {| Retriever.document := "Find x"; Retriever.metadata := [];
        Retriever.distance := -1; Retriever.id := None |}]
  = inl Constants.ZeroDivisionError.
Proof. vm_compute. reflexivity. Qed.

(* ================================================================== *)
(** * The order of binary64 numbers *)
(* ================================================================== *)

Section FloatOrder.
Import FloatOps FloatAxioms SpecFloat.

Local Ltac compare_cases :=
  repeat match goal with
  | H : context [Z.compare ?a ?b] |- _ => destruct (Z.compare_spec a b)
  | |- context [Z.compare ?a ?b] => destruct (Z.compare_spec a b)
  | H : context [Pos.compare_cont Eq ?a ?b] |- _ =>
      change (Pos.compare_cont Eq a b) with (Pos.compare a b) in H;
      destruct (Pos.compare_spec a b)
  | |- context [Pos.compare_cont Eq ?a ?b] =>
      change (Pos.compare_cont Eq a b) with (Pos.compare a b);
      destruct (Pos.compare_spec a b)
  end.

Local Ltac by_cases :=
  try reflexivity; try discriminate; try congruence;
  compare_cases; simpl in *; try reflexivity; try discriminate; try lia.






Lemma SFeqb_ltb (x y s : spec_float) :
  SFeqb x s = true -> SFeqb y s = true -> SFltb x y = false.
Proof.
  unfold SFeqb, SFltb, SFcompare.
  destruct x as [sx|sx| |sx mx ex], y as [sy|sy| |sy my ey],
    s as [ss|ss| |ss ms es];
    try destruct sx; try destruct sy; try destruct ss;
    intros H1 H2; by_cases.
Qed.







Lemma eqb_ltb (x y s : float) :
  (x =? s)%float = true -> (y =? s)%float = true -> (x <? y)%float = false.
Proof. rewrite !eqb_spec, ltb_spec. apply SFeqb_ltb. Qed.

End FloatOrder.

(* ================================================================== *)
(** * Re-ranking in binary64 *)
(* ================================================================== *)

Section Rerank64.
Import Constants.
Import Retriever64.
Variable lower : string -> string.
Variable split : string -> list string.

Lemma counts_unique (P : string -> Prop) (n m : nat) :
  counts P n -> counts P m -> n = m.
Proof.
  intros [l [N [I <-]]] [l' [N' [I' <-]]].
  apply Permutation_length, NoDup_Permutation; [exact N | exact N' |].
  intros w. rewrite I, I'. reflexivity.
Qed.






(** The second loop returns the results with their scores when no
    divisor is zero, and raises at the first zero divisor. *)
Lemma combine_all_with_scores (query : string) (results : list hit) :
  (forall r, In r results -> zero_divisor r = false) ->
  combine_all
    (map (fun r => (r, keyword_score_of lower split
                         (query_words lower split query) r)) results)
  = inr (map (with_scores lower split query) results).
Proof.
  induction results as [|r results IH]; intros H; [reflexivity|].
  cbn [map combine_all]. unfold combine.
  pose proof (H r (or_introl eq_refl)) as Hr. unfold zero_divisor in Hr.
  rewrite Hr. rewrite IH by (intros; apply H; now right). reflexivity.
Qed.

Lemma combine_all_zero_divisor (query : string) (results : list hit) :
  (exists r, In r results /\ zero_divisor r = true) ->
  combine_all
    (map (fun r => (r, keyword_score_of lower split
                         (query_words lower split query) r)) results)
  = inl ZeroDivisionError.
Proof.
  induction results as [|r results IH]; intros [r0 [Hin Hz]]; [destruct Hin|].
  cbn [map combine_all]. unfold combine.
  destruct (1 + distance r =? 0)%float eqn:E; [reflexivity|].
  destruct Hin as [<- | Hin].
  - unfold zero_divisor in Hz. congruence.
  - rewrite IH by (exists r0; now split). reflexivity.
Qed.

Lemma rerank64_inr (query : string) (results : list hit) (out : list ranked) :
  _rerank_results lower split query results = inr out ->
  out = sort_desc (map (with_scores lower split query) results).
Proof.
  unfold _rerank_results.
  assert (D : (forall r, In r results -> zero_divisor r = false)
              \/ exists r, In r results /\ zero_divisor r = true).
  { clear. induction results as [|r results IH]; [left; intros r []|].
    destruct (zero_divisor r) eqn:E.
    - right. exists r. split; [now left | exact E].
    - destruct IH as [IH | [r0 [Hin Hz]]].
      + left. intros r' [<- | Hr]; [exact E | now apply IH].
      + right. exists r0. split; [now right | exact Hz]. }
  destruct D as [D | D].
  - rewrite (combine_all_with_scores query results D). now intros [= <-].
  - rewrite (combine_all_zero_divisor query results D). discriminate.
Qed.







(** Inserting keeps the order among the results of one score. *)
Lemma with_score_insert64 (k : float) (x : ranked) (l : list ranked) :
  with_score64 k (insert x l) = with_score64 k (x :: l).
Proof.
  unfold with_score64. induction l as [|y l IH]; [reflexivity|].
  cbn [insert].
  destruct (combined_score x <? combined_score y)%float eqn:E; [|reflexivity].
  cbn [filter] in *. rewrite IH.
  destruct (combined_score x =? k)%float eqn:Ex; [|reflexivity].
  destruct (combined_score y =? k)%float eqn:Ey; [|reflexivity].
  pose proof (eqb_ltb _ _ _ Ex Ey). congruence.
Qed.

Lemma with_score_sort64 (k : float) (l : list ranked) :
  with_score64 k (sort_desc l) = with_score64 k l.
Proof.
  induction l as [|x l IH]; [reflexivity|].
  cbn [sort_desc fold_right]. rewrite with_score_insert64.
  unfold with_score64 in *. cbn [filter]. fold (sort_desc l). now rewrite IH.
Qed.


End Rerank64.





(** A result whose distance is -1 makes the divisor zero: the call
    raises. *)
Example rerank64_zero_division :
  Retriever64._rerank_results Str.lower Str.words "find x"
    [hit_low64;
     {| Retriever64.document := "Find x"; Retriever64.metadata := [];
        Retriever64.distance := (-1)%float; Retriever64.id := None |}]
  = inl Constants.ZeroDivisionError.
Proof. vm_compute. reflexivity. Qed.

(* ================================================================== *)
(** * Further properties of segmentation *)
(* ================================================================== *)

Section Blocks.
Import Constants.
Import QuestionExtractor.

Lemma split_into_blocks_flush (text : string) :
  _split_into_blocks text
  = flush (fold_left split_step (Str.split Str.nl text) ([], [])).
Proof.
  unfold _split_into_blocks, flush.
  destruct (fold_left split_step (Str.split Str.nl text) ([], []))
    as [blocks current_block].
  destruct current_block; reflexivity.
Qed.

Lemma join_snoc (l : list string) (x : string) :
  l <> [] -> Str.join Str.NL (l ++ [x]) = (Str.join Str.NL l ++ Str.NL ++ x)%string.
Proof.
  induction l as [|a l IH]; intros H; [congruence|].
  destruct l as [|b l].
  - reflexivity.
  - change ((a :: b :: l) ++ [x])%list with (a :: ((b :: l) ++ [x]))%list.
    rewrite (join_cons Str.NL a ((b :: l) ++ [x])) by discriminate.
    rewrite IH by discriminate.
    rewrite (join_cons Str.NL a (b :: l)) by discriminate.
    now rewrite !app_string_assoc.
Qed.

(** Joining does not see whether two lines were joined beforehand. *)
Lemma join_merge (A B : list string) (x y : string) :
  Str.join Str.NL (A ++ (x ++ Str.NL ++ y)%string :: B)
  = Str.join Str.NL (A ++ x :: y :: B).
Proof.
  induction A as [|a A IH].
  - cbn [app]. destruct B as [|b B].
    + reflexivity.
    + rewrite (join_cons Str.NL (x ++ Str.NL ++ y)%string (b :: B)) by discriminate.
      rewrite (join_cons Str.NL x (y :: b :: B)) by discriminate.
      rewrite (join_cons Str.NL y (b :: B)) by discriminate.
      now rewrite !app_string_assoc.
  - cbn [app].
    rewrite (join_cons Str.NL a (A ++ (x ++ Str.NL ++ y)%string :: B))
      by (destruct A; discriminate).
    rewrite (join_cons Str.NL a (A ++ x :: y :: B))
      by (destruct A; discriminate).
    now rewrite IH.
Qed.

Lemma flush_step (st : list string * list string) (line : string) (rest : list string) :
  (snd st = [] -> fst st = []) ->
  Str.join Str.NL (flush (split_step st line) ++ rest)
  = Str.join Str.NL (flush st ++ line :: rest).
Proof.
  destruct st as [blocks cur]. cbn [fst snd]. intros Inv.
  unfold split_step.
  destruct (_is_question_start line).
  - destruct cur as [|c cur]; unfold flush; cbn [fst snd Str.join];
      now rewrite <- app_assoc.
  - destruct cur as [|c cur]; unfold flush; cbn [fst snd app].
    + now rewrite (Inv eq_refl).
    + change (c :: (cur ++ [line]))%list with ((c :: cur) ++ [line])%list.
      rewrite (join_snoc (c :: cur) line) by discriminate.
      rewrite <- !app_assoc. cbn [app]. apply join_merge.
Qed.

Lemma split_step_open (st : list string * list string) (line : string) :
  snd (split_step st line) <> [].
Proof.
  destruct st as [blocks cur]. unfold split_step.
  destruct (_is_question_start line); simpl; [discriminate|].
  destruct cur; discriminate.
Qed.

Lemma fold_split_step_join (lines : list string) :
  forall st,
    (snd st = [] -> fst st = []) ->
    Str.join Str.NL (flush (fold_left split_step lines st))
    = Str.join Str.NL (flush st ++ lines).
Proof.
  induction lines as [|l lines IH]; intros st Inv; simpl.
  - now rewrite app_nil_r.
  - rewrite IH.
    + now apply flush_step.
    + intros E. now elim (split_step_open st l).
Qed.

(** X1: the blocks of a text, joined by newlines, are the text: the
    segmentation drops and adds no character. *)
Theorem X1_split_into_blocks_join_is_text :
  forall text,
    Str.join Str.NL (QuestionExtractor._split_into_blocks text) = text.
Proof.
  intros text. rewrite split_into_blocks_flush.
  rewrite fold_split_step_join by reflexivity.
  simpl. apply join_split.
Qed.

Lemma fold_extract_step_length (blocks : list string) :
  forall acc,
    List.length (fold_left extract_step blocks acc)
    <= List.length acc + List.length blocks.
Proof.
  induction blocks as [|b blocks IH]; intros acc; simpl; [lia|].
  specialize (IH (extract_step acc b)).
  assert (List.length (extract_step acc b) <= S (List.length acc)).
  { unfold extract_step. destruct (_is_question_block b); [|lia].
    destruct (_extract_question b); [|lia].
    rewrite length_app. simpl. lia. }
  lia.
Qed.

Lemma lstrip_no_leading_space (s : string) :
  starts_with_space (Str.lstrip s) = false.
Proof.
  induction s as [|c s IH]; simpl; [reflexivity|].
  destruct (Str.is_space c) eqn:E; [exact IH | simpl; exact E].
Qed.

Lemma rstrip_keeps_head (s : string) :
  starts_with_space s = false -> starts_with_space (Str.rstrip s) = false.
Proof.
  destruct s as [|c s]; simpl; [reflexivity|]. intros E.
  destruct (Str.rstrip s); [rewrite E; simpl; exact E | simpl; exact E].
Qed.

Lemma rstrip_no_trailing_space (s : string) :
  ends_with_space (Str.rstrip s) = false.
Proof.
  induction s as [|c s IH]; simpl; [reflexivity|].
  destruct (Str.rstrip s) as [|d r] eqn:E.
  - destruct (Str.is_space c) eqn:Ec; simpl; [reflexivity | exact Ec].
  - exact IH.
Qed.

Lemma strip_clean (s : string) :
  starts_with_space (Str.strip s) = false
  /\ ends_with_space (Str.strip s) = false.
Proof.
  unfold Str.strip. split.
  - apply rstrip_keeps_head, lstrip_no_leading_space.
  - apply rstrip_no_trailing_space.
Qed.

End Blocks.

(** X2: [extract] returns at most one question per block, and the text of
    every question it returns is not empty and neither begins nor ends
    with white space. *)
Theorem X2_extract_questions_have_stripped_text :
  forall source questions,
    QuestionExtractor.extract (Constants.PyStr source) = inr questions ->
    List.length questions
      <= List.length (QuestionExtractor._split_into_blocks source)
    /\ forall q, In q questions ->
         QuestionExtractor.text q <> ""%string
         /\ starts_with_space (QuestionExtractor.text q) = false
         /\ ends_with_space (QuestionExtractor.text q) = false.
Proof.
  intros source questions H.
  unfold QuestionExtractor.extract in H.
  destruct (negb (QuestionExtractor.validate_source (Constants.PyStr source)));
    [discriminate|].
  injection H as <-. unfold QuestionExtractor.postprocess. split.
  - apply (fold_extract_step_length _ []).
  - intros q Hq. apply fold_extract_step_in in Hq.
    destruct Hq as [[] | [block [_ [_ Hq]]]].
    unfold QuestionExtractor._extract_question in Hq.
    destruct (Str.truthy (QuestionExtractor._clean_text block)) eqn:T;
      simpl in Hq; [|discriminate].
    injection Hq as <-. simpl. split.
    + intros E. rewrite E in T. discriminate T.
    + unfold QuestionExtractor._clean_text. apply strip_clean.
Qed.

Lemma X2_witness :
  List.length [scenario_question] <= 1
  /\ QuestionExtractor.text scenario_question <> ""%string.
Proof.
  destruct (X2_extract_questions_have_stripped_text
              scenario_text [scenario_question] scenario_extract) as [L H].
  split; [exact L|].
  exact (proj1 (H scenario_question (or_introl eq_refl))).
Defined.

(** X3: the confidence of any text is at least 0.5 and strictly below 1,
    so the cap [min(score, 1.0)] never changes the score; and it is
    exactly 0.5 only when none of the four signals (question mark, math
    content, question number, command verb) is present. *)
Theorem X3_confidence_between_half_and_one :
  forall text,
    PrimFloat.leb 0.5 (QuestionExtractor._calculate_confidence text) = true
    /\ PrimFloat.ltb (QuestionExtractor._calculate_confidence text) 1 = true
    /\ (PrimFloat.eqb (QuestionExtractor._calculate_confidence text) 0.5 = true
        <-> (Str.contains "?" text = false
             /\ QuestionExtractor._contains_math text = false
             /\ QuestionExtractor.truthy_opt
                  (QuestionExtractor._extract_question_number text) = false
             /\ existsb (fun kw => Str.contains kw (Str.lower text))
                        QuestionExtractor.question_keywords = false)).
Proof.
  intros text. unfold QuestionExtractor._calculate_confidence.
  destruct (Str.contains "?" text),
           (QuestionExtractor._contains_math text),
           (QuestionExtractor.truthy_opt
              (QuestionExtractor._extract_question_number text)),
           (existsb (fun kw => Str.contains kw (Str.lower text))
                    QuestionExtractor.question_keywords);
    vm_compute; repeat split; intros; try discriminate;
    repeat match goal with H : _ /\ _ |- _ => destruct H end;
    try discriminate; reflexivity.
Qed.

(* ================================================================== *)
(** * Further properties of conversion and validation *)
(* ================================================================== *)

Section Markup.
Import LaTeXConverter.
Import Validator.

Lemma startswith_app (p s : string) : Str.startswith p (p ++ s) = true.
Proof.
  induction p as [|c p IH]; simpl; [reflexivity|].
  now rewrite Ascii.eqb_refl, IH.
Qed.

Lemma braces_loop_app (a b : string) :
  forall count,
    braces_loop count (a ++ b)
    = match braces_loop count a with
      | None => None
      | Some z => braces_loop z b
      end.
Proof.
  induction a as [|c a IH]; intros count; [reflexivity|].
  change (String c a ++ b)%string with (String c (a ++ b)).
  rewrite !braces_loop_step.
  destruct (brace_step count c <? 0)%Z; [reflexivity | apply IH].
Qed.

Lemma brace_step_shift (count k : Z) (c : ascii) :
  brace_step (count + k) c = (brace_step count c + k)%Z.
Proof.
  unfold brace_step.
  destruct (Ascii.eqb c "{"); [lia|]. destruct (Ascii.eqb c "}"); lia.
Qed.

(** A balanced run stays balanced at a higher starting level. *)
Lemma braces_loop_shift (s : string) :
  forall count z k,
    (0 <= k)%Z ->
    braces_loop count s = Some z ->
    braces_loop (count + k) s = Some (z + k)%Z.
Proof.
  induction s as [|c s IH]; intros count z k Hk.
  - simpl. now intros [= <-].
  - rewrite !braces_loop_step, brace_step_shift.
    destruct (brace_step count c <? 0)%Z eqn:E; [discriminate|].
    apply Z.ltb_ge in E.
    assert (E' : (brace_step count c + k <? 0)%Z = false) by (apply Z.ltb_ge; lia).
    rewrite E'. now apply IH.
Qed.

Lemma balanced_some (s : string) :
  _check_balanced_braces s = true <-> braces_loop 0 s = Some 0%Z.
Proof.
  unfold _check_balanced_braces.
  destruct (braces_loop 0 s) as [z|]; split; intros H; try discriminate.
  - apply Z.eqb_eq in H. now subst.
  - injection H as ->. reflexivity.
Qed.

Lemma count_char_cons (c d : ascii) (s : string) :
  Str.count (String c EmptyString) (String d s)
  = (if Ascii.eqb c d then 1 else 0) + Str.count (String c EmptyString) s.
Proof.
  unfold Str.count. cbn [Str.count_aux Str.startswith String.length].
  destruct (Ascii.eqb c d); simpl; [|reflexivity].
  destruct s; reflexivity.
Qed.

Lemma running_counter_counts (s : string) :
  forall count,
    running_counter count s
    = (count + Z.of_nat (Str.count "{" s) - Z.of_nat (Str.count "}" s))%Z.
Proof.
  induction s as [|c s IH]; intros count.
  - simpl. lia.
  - cbn [running_counter]. rewrite IH, !count_char_cons. unfold brace_step.
    rewrite (Ascii.eqb_sym c "{"), (Ascii.eqb_sym c "}").
    destruct (Ascii.eqb "{" c) eqn:E1.
    + apply Ascii.eqb_eq in E1. subst c.
      change (Ascii.eqb "}" "{") with false. cbv iota. lia.
    + destruct (Ascii.eqb "}" c); cbv iota; lia.
Qed.

End Markup.

(** X4: [_apply_math_mode] is idempotent; for a mode of
    [LATEX_DELIMITERS] its result starts with the opening delimiter of
    the mode, and for any other mode the text is returned as it is. *)
Theorem X4_apply_math_mode_idempotent :
  forall text mode,
    LaTeXConverter._apply_math_mode
      (LaTeXConverter._apply_math_mode text mode) mode
    = LaTeXConverter._apply_math_mode text mode
    /\ (forall start end_,
          LaTeXConverter.lookup mode Constants.LATEX_DELIMITERS
          = Some (start, end_) ->
          Str.startswith start (LaTeXConverter._apply_math_mode text mode)
          = true)
    /\ (LaTeXConverter.lookup mode Constants.LATEX_DELIMITERS = None ->
        LaTeXConverter._apply_math_mode text mode = text).
Proof.
  intros text mode. unfold LaTeXConverter._apply_math_mode.
  destruct (LaTeXConverter.lookup mode Constants.LATEX_DELIMITERS)
    as [[start end_]|] eqn:L.
  - destruct (Str.startswith start text) eqn:E; simpl.
    + rewrite E. simpl. split; [reflexivity|]. split; [|discriminate].
      now intros s e [= <- <-].
    + rewrite startswith_app. simpl. split; [reflexivity|].
      split; [|discriminate].
      intros s e [= <- <-]. apply startswith_app.
  - split; [reflexivity|]. split; [discriminate | reflexivity].
Qed.

(** X5: brace balance composes: the concatenation of two balanced strings
    is balanced, a balanced string put between an opening and a closing
    brace is balanced, and a balanced string holds as many opening as
    closing braces. *)
Theorem X5_balanced_braces_compose :
  forall a b,
    Validator._check_balanced_braces a = true ->
    Validator._check_balanced_braces b = true ->
    Validator._check_balanced_braces (a ++ b) = true
    /\ Validator._check_balanced_braces ("{" ++ a ++ "}") = true
    /\ Str.count "{" a = Str.count "}" a.
Proof.
  intros a b Ha Hb.
  apply balanced_some in Ha. apply balanced_some in Hb.
  split; [|split].
  - apply balanced_some. now rewrite braces_loop_app, Ha.
  - apply balanced_some.
    change ("{" ++ a ++ "}")%string with (String "{" (a ++ "}")).
    rewrite braces_loop_step.
    change (brace_step 0 "{") with (0 + 1)%Z.
    change (0 + 1 <? 0)%Z with false. cbv iota.
    rewrite braces_loop_app.
    rewrite (braces_loop_shift a 0 0 1 ltac:(lia) Ha).
    reflexivity.
  - apply braces_loop_some in Ha. rewrite running_counter_counts in Ha. lia.
Qed.

Lemma X5_witness :
  Validator._check_balanced_braces ("\frac{1}{2}" ++ "x^{2}") = true
  /\ Str.count "{" "\frac{1}{2}" = Str.count "}" "\frac{1}{2}".
Proof.
  destruct (X5_balanced_braces_compose "\frac{1}{2}" "x^{2}"
              eq_refl eq_refl) as [H1 [_ H3]].
  split; [exact H1 | exact H3].
Defined.

Lemma validate_question_fst (question : Validator.question_dict) :
  fst (Validator.validate_question question)
  = Validator.get_truthy (Validator.q_text question)
    && negb (Str.len
               (Validator.get_default (Validator.q_text question) "") <? 10)
    && Validator._has_question_indicator
         (Validator.get_default (Validator.q_text question) "")
    && (negb (Validator.get_truthy (Validator.q_latex question))
        || match Validator.validate_latex
                   (Validator.get_default (Validator.q_latex question) "") with
           | [] => true
           | _ => false
           end).
Proof.
  unfold Validator.validate_question.
  destruct (Validator.get_truthy (Validator.q_text question));
    destruct (Str.len
                (Validator.get_default (Validator.q_text question) "") <? 10);
    destruct (Validator._has_question_indicator
                (Validator.get_default (Validator.q_text question) ""));
    destruct (Validator.get_truthy (Validator.q_latex question));
    destruct (Validator.validate_latex
                (Validator.get_default (Validator.q_latex question) ""));
    reflexivity.
Qed.

(** X6: a question is valid exactly when its text is present, at least
    ten characters (code points) long and holds a question indicator, and
    its markup, when present and not empty, has no error.  A text of nine
    characters is too short even when it takes twelve bytes. *)
Theorem X6_validate_question_valid_iff :
  (forall question,
      fst (Validator.validate_question question) = true
      <-> ((exists text,
               Validator.q_text question = Some text
               /\ 10 <= Str.len text
               /\ Validator._has_question_indicator text = true)
           /\ (Validator.get_truthy (Validator.q_latex question) = false
               \/ exists latex,
                    Validator.q_latex question = Some latex
                    /\ Validator.validate_latex latex = [])))
  /\ (forall text, Str.len text <= String.length text)
  /\ Str.len "Find αβγ?" = 9
  /\ Validator.validate_question
       {| Validator.q_text := Some "Find αβγ?"; Validator.q_latex := None |}
     = (false, ["Question text is too short"]).
Proof.
  split; [|split; [|split; vm_compute; reflexivity]].
  - intros [t l]. rewrite validate_question_fst.
    cbn [Validator.q_text Validator.q_latex].
    rewrite !andb_true_iff, orb_true_iff, !negb_true_iff, Nat.ltb_ge.
    split.
    + intros [[[T L] I] V]. split.
      * destruct t as [text|]; [|discriminate T]. exists text. auto.
      * destruct V as [V | V]; [now left|].
        destruct l as [latex|]; [|now left]. right. exists latex.
        split; [reflexivity|]. simpl in V.
        destruct (Validator.validate_latex latex); [reflexivity | discriminate V].
    + intros [[text [-> [L I]]] V]. simpl. repeat split; try assumption.
      * destruct text; [simpl in L; lia | reflexivity].
      * destruct V as [V | [latex [-> V]]]; [now left|].
        right. simpl. now rewrite V.
  - induction text as [|c text IH]; [apply Nat.le_refl|].
    cbn [Str.len String.length]. destruct (Str.is_continuation c); lia.
Qed.

(* ================================================================== *)
(** * Further properties of re-ranking *)
(* ================================================================== *)

Section RerankMore.
Import Constants.
Import Retriever.
Local Open Scope Q_scope.

(** When the second loop returns, it returns the scored results. *)
Lemma combine_all_inr (query : string) (results : list hit) :
  forall l,
    combine_all
      (map (fun r => (r, keyword_score_of (query_words query) r)) results)
    = inr l ->
    l = map (scored query) results
    /\ forall r, In r results -> ~ distance r == -1.
Proof.
  induction results as [|r results IH]; intros l H; simpl in H.
  - injection H as <-. split; [reflexivity | intros r []].
  - unfold combine in H.
    destruct (Qeq_bool (1 + distance r) 0) eqn:E; [discriminate|].
    destruct (combine_all _) as [e|xs] eqn:C; [discriminate|].
    injection H as <-. destruct (IH xs eq_refl) as [-> Hd].
    split; [reflexivity|].
    intros r' [<- | Hr]; [|now apply Hd].
    intros D. apply Qeq_bool_neq in E. apply E. rewrite D. reflexivity.
Qed.

Lemma rerank_inr (query : string) (results : list hit) (out : list ranked) :
  _rerank_results query results = inr out ->
  out = sort_desc (map (scored query) results)
  /\ forall r, In r results -> ~ distance r == -1.
Proof.
  unfold _rerank_results.
  destruct (combine_all _) as [e|l] eqn:C; [discriminate|].
  intros [= <-]. destruct (combine_all_inr query results l C) as [-> Hd].
  now split.
Qed.

(** A list already in descending order is left as it is. *)
Lemma sort_desc_sorted (l : list ranked) :
  descending l -> sort_desc l = l.
Proof.
  unfold descending. induction l as [|x l IH]; intros H; [reflexivity|].
  apply StronglySorted_inv in H. destruct H as [Hl Hx].
  cbn [sort_desc fold_right]. fold (sort_desc l). rewrite (IH Hl).
  destruct l as [|y l]; [reflexivity|]. cbn [insert].
  apply Forall_inv in Hx. apply Qle_bool_iff in Hx. now rewrite Hx.
Qed.

Lemma of_nat_nonneg (n : nat) : 0 <= of_nat n.
Proof. unfold of_nat, Qle. simpl. lia. Qed.

Lemma of_nat_le (a b : nat) : (a <= b)%nat -> of_nat a <= of_nat b.
Proof. intros H. unfold of_nat, Qle. simpl. lia. Qed.

Lemma inter_length (a b : list string) :
  (List.length (inter a b) <= List.length a)%nat.
Proof. unfold inter. apply filter_length_le. Qed.

(** The lexical term is a share: between 0 and 1. *)
Lemma lexical_term_range (query : string) (r : hit) :
  0 <= lexical_term query r <= 1.
Proof.
  unfold lexical_term, lexical_overlap.
  destruct (query_words query) as [|w ws] eqn:E.
  - split; [apply Qle_refl | discriminate].
  - assert (P : 0 < of_nat (List.length (w :: ws))).
    { apply (of_nat_lt 0). simpl. lia. }
    split.
    + apply Qle_shift_div_l; [exact P|]. rewrite Qmult_0_l. apply of_nat_nonneg.
    + apply Qle_shift_div_r; [exact P|]. rewrite Qmult_1_l.
      apply of_nat_le, inter_length.
Qed.

(** The vector score of a non-negative distance lies in (0, 1], and a
    larger distance gives a smaller score. *)
Lemma vector_score_range (d : Q) : 0 <= d -> 0 < 1 / (1 + d) <= 1.
Proof.
  intros H. assert (P : 0 < 1 + d) by lra. split.
  - apply Qlt_shift_div_l; [exact P | lra].
  - apply Qle_shift_div_r; [exact P | lra].
Qed.

Lemma vector_score_antitone (d1 d2 : Q) :
  0 <= d1 -> d1 <= d2 -> 1 / (1 + d2) <= 1 / (1 + d1).
Proof.
  intros H0 H. assert (P1 : 0 < 1 + d1) by lra. assert (P2 : 0 < 1 + d2) by lra.
  apply Qle_shift_div_r; [exact P2|].
  assert (E : 1 / (1 + d1) * (1 + d2) == (1 + d2) / (1 + d1))
    by (unfold Qdiv; ring).
  rewrite E. apply Qle_shift_div_l; [exact P1 | lra].
Qed.

End RerankMore.

(** X7: the sort of [_rerank_results] is stable on the binary64 scores:
    when no combined score is NaN, the results whose combined score
    equals a given float come out in the order in which they came in.
    Two results whose scores differ only in the last place are not
    equal: the greater one comes first whatever the input order. *)
Theorem X7_rerank_keeps_order_of_equal_scores :
  forall (lower : string -> string) (split : string -> list string)
         query results out,
    Retriever64._rerank_results lower split query results = inr out ->
    no_nan out ->
    forall k,
      with_score64 k out
      = with_score64 k (map (with_scores lower split query) results).
Proof.
  intros lower split query results out H _ k.
  rewrite (rerank64_inr lower split query results out H).
  apply with_score_sort64.
Qed.

Example rerank64_last_place :
  Retriever64._rerank_results Str.lower Str.words "find x" [hit_third; hit_two]
  = inr [with_scores Str.lower Str.words "find x" hit_two;
         with_scores Str.lower Str.words "find x" hit_third]
  /\ Retriever64.combined_score
       (with_scores Str.lower Str.words "find x" hit_two)
     = 0x1.1111111111111p-1%float
  /\ Retriever64.combined_score
       (with_scores Str.lower Str.words "find x" hit_third)
     = 0x1.1111111111110p-1%float.
Proof. vm_compute. repeat split. Qed.

(** X7 at two results with the same binary64 score, the one without a
    query word first: it stays first. *)
Lemma X7_witness :
  with_score64 6305039478318694%float
    [with_scores Str.lower Str.words "find x" near_low;
     with_scores Str.lower Str.words "find x" near_high]
  = with_score64 6305039478318694%float
      (map (with_scores Str.lower Str.words "find x") [near_low; near_high]).
Proof.
  assert (E : Retriever64._rerank_results Str.lower Str.words "find x"
                [near_low; near_high]
              = inr [with_scores Str.lower Str.words "find x" near_low;
                     with_scores Str.lower Str.words "find x" near_high])
    by (vm_compute; reflexivity).
  assert (N : no_nan [with_scores Str.lower Str.words "find x" near_low;
                      with_scores Str.lower Str.words "find x" near_high]).
  { intros x [<- | [<- | []]]; vm_compute; reflexivity. }
  exact (X7_rerank_keeps_order_of_equal_scores
           Str.lower Str.words "find x" [near_low; near_high] _ E N
           6305039478318694%float).
Defined.

(** X8: in the output of [_rerank_results] every keyword score lies in
    [0, 1], and every result at a non-negative distance has a combined
    score in (0, 1]. *)
Theorem X8_rerank_scores_in_unit_interval :
  forall query results out,
    Retriever._rerank_results query results = inr out ->
    forall x, In x out ->
      (0 <= Retriever.keyword_score x <= 1)%Q
      /\ ((0 <= Retriever.distance (Retriever.result x))%Q ->
          (0 < Retriever.combined_score x <= 1)%Q).
Proof.
  intros query results out H x Hx.
  destruct (rerank_inr query results out H) as [-> _].
  apply (Permutation_in _ (Permutation_sym (sort_desc_perm _))) in Hx.
  apply in_map_iff in Hx. destruct Hx as [r [<- _]].
  cbn [scored Retriever.keyword_score Retriever.combined_score Retriever.result].
  rewrite keyword_score_is_lexical_term.
  pose proof (lexical_term_range query r) as K.
  split; [exact K|].
  intros D. pose proof (vector_score_range _ D) as V.
  destruct K as [K0 K1]. destruct V as [V0 V1].
  set (v := (1 / (1 + Retriever.distance r))%Q) in *.
  set (t := lexical_term query r) in *.
  split; lra.
Qed.

Lemma X8_witness :
  (0 < Retriever.combined_score (scored "find x" hit_high) <= 1)%Q.
Proof.
  apply (X8_rerank_scores_in_unit_interval
           "find x" [hit_low; hit_high] _ rerank_two_hits
           (scored "find x" hit_high) (or_introl eq_refl)).
  vm_compute. discriminate.
Defined.

(** X9: for a query without words, results at non-negative distances
    that come in increasing order of distance are returned in that same
    order: the re-ranking only adds the scores. *)
Theorem X9_rerank_without_query_words_keeps_order :
  forall query results,
    Retriever.query_words query = [] ->
    (forall r, In r results -> (0 <= Retriever.distance r)%Q) ->
    by_distance results ->
    Retriever._rerank_results query results
    = inr (map (scored query) results).
Proof.
  intros query results Hq Hd Hs.
  assert (N : forall r, In r results -> ~ (Retriever.distance r == -1)%Q).
  { intros r Hr E. specialize (Hd r Hr). rewrite E in Hd.
    revert Hd. vm_compute. intros C. now apply C. }
  unfold Retriever._rerank_results.
  rewrite (combine_all_scored query results N). f_equal.
  apply sort_desc_sorted. unfold descending, by_distance in *.
  clear N. induction results as [|r results IH]; [constructor|].
  apply StronglySorted_inv in Hs. destruct Hs as [Hs Hr].
  simpl. constructor.
  - apply IH; [intros; apply Hd; now right | exact Hs].
  - apply Forall_forall. intros x Hx.
    apply in_map_iff in Hx. destruct Hx as [r' [<- Hr']].
    rewrite Forall_forall in Hr. specialize (Hr r' Hr').
    cbn [scored Retriever.combined_score].
    rewrite !keyword_score_is_lexical_term.
    unfold lexical_term. rewrite Hq.
    pose proof (vector_score_antitone _ _ (Hd r (or_introl eq_refl)) Hr) as V.
    set (v := (1 / (1 + Retriever.distance r))%Q) in *.
    set (v' := (1 / (1 + Retriever.distance r'))%Q) in *.
    lra.
Qed.

Lemma X9_witness :
  Retriever._rerank_results "   " [hit_low; hit_far]
  = inr (map (scored "   ") [hit_low; hit_far]).
Proof.
  apply X9_rerank_without_query_words_keeps_order.
  - reflexivity.
  - intros r [<- | [<- | []]]; vm_compute; discriminate.
  - repeat constructor; vm_compute; discriminate.
Defined.

(* ================================================================== *)
(** * Pages and batches *)
(* ================================================================== *)

Section Pages.
Import Constants.
Import QuestionExtractor.

Lemma extract_unreadable (source : pyobj) :
  validate_source source = false ->
  extract source = inl (ExtractionError "Invalid source text").
Proof. intros H. unfold extract. now rewrite H. Qed.

Lemma extract_readable (source : pyobj) :
  validate_source source = true ->
  exists questions, extract source = inr questions.
Proof.
  intros H. unfold extract. rewrite H. simpl.
  destruct source; try discriminate H. eexists. reflexivity.
Qed.

Lemma pages_loop_readable (pages : list page) :
  Forall (fun p => readable p = true) pages ->
  forall acc, pages_loop pages acc = inr (acc ++ flat_map per_page pages)%list.
Proof.
  induction 1 as [|p pages Hp _ IH]; intros acc; simpl.
  - now rewrite app_nil_r.
  - unfold per_page. destruct (extract_readable _ Hp) as [qs E].
    rewrite E, IH. now rewrite app_assoc.
Qed.

Lemma pages_loop_unreadable (pages : list page) :
  Exists (fun p => readable p = false) pages ->
  forall acc, pages_loop pages acc = inl (ExtractionError "Invalid source text").
Proof.
  induction 1 as [p pages Hp | p pages _ IH]; intros acc; simpl.
  - now rewrite (extract_unreadable _ Hp).
  - destruct (readable p) eqn:R.
    + destruct (extract_readable _ R) as [qs E]. rewrite E. apply IH.
    + now rewrite (extract_unreadable _ R).
Qed.

Lemma per_page_number (p : page) (q : Question) :
  In q (per_page p) -> page_number q = p_page_number p.
Proof.
  unfold per_page. destruct (extract (page_text_of p)); [intros []|].
  intros H. apply in_map_iff in H. destruct H as [q' [<- _]]. reflexivity.
Qed.

End Pages.

(** X10: [extract_from_pages] raises [ExtractionError] as soon as one page
    has no text, an empty text or a text that is not a string, and then
    returns nothing for the other pages; when every page has a non-empty
    text it returns the questions of the pages in order, each with the
    page number of its page. *)
Theorem X10_extract_from_pages_all_or_nothing :
  forall pages,
    (Exists (fun p => readable p = false) pages ->
     QuestionExtractor.extract_from_pages pages
     = inl (Constants.ExtractionError "Invalid source text"))
    /\ (Forall (fun p => readable p = true) pages ->
        QuestionExtractor.extract_from_pages pages
        = inr (flat_map per_page pages))
    /\ (forall questions q,
          QuestionExtractor.extract_from_pages pages = inr questions ->
          In q questions ->
          exists p, In p pages
                    /\ QuestionExtractor.page_number q
                       = QuestionExtractor.p_page_number p).
Proof.
  intros pages. unfold QuestionExtractor.extract_from_pages.
  split; [|split].
  - intros H. now apply pages_loop_unreadable.
  - intros H. now rewrite (pages_loop_readable pages H).
  - intros questions q H Hq.
    destruct (Forall_Exists_dec (fun p => readable p = true)
                (fun p => bool_dec (readable p) true) pages) as [F | E].
    + rewrite (pages_loop_readable pages F) in H. injection H as <-.
      apply in_flat_map in Hq. destruct Hq as [p [Hp Hq]].
      exists p. split; [exact Hp | now apply per_page_number].
    + assert (E' : Exists (fun p => readable p = false) pages).
      { apply Exists_exists in E. destruct E as [p [Hp Hn]].
        apply Exists_exists. exists p. split; [exact Hp|].
        now destruct (readable p). }
      rewrite (pages_loop_unreadable pages E') in H. discriminate H.
Qed.

Section Batches.
Import Validator.

Lemma batch_loop_fields (questions : list question_dict) :
  forall i r,
    total (batch_loop i questions r) = total r
    /\ valid (batch_loop i questions r)
       = valid r
         + List.length (filter (fun q => fst (validate_question q)) questions)
    /\ invalid (batch_loop i questions r)
       = invalid r
         + List.length
             (filter (fun q => negb (fst (validate_question q))) questions)
    /\ errors (batch_loop i questions r)
       = (errors r ++ invalid_from i questions)%list
    /\ warnings (batch_loop i questions r) = warnings r.
Proof.
  induction questions as [|q questions IH]; intros i r.
  - simpl. rewrite app_nil_r. repeat split; lia.
  - cbn [batch_loop invalid_from filter].
    destruct (validate_question q) as [is_valid errs] eqn:E.
    cbn [fst snd negb].
    destruct is_valid; cbn [negb];
      match goal with
      | |- context [batch_loop (S i) questions ?r'] =>
          destruct (IH (S i) r') as [H1 [H2 [H3 [H4 H5]]]]
      end;
      rewrite H1, H2, H3, H4, H5; cbn [total valid invalid errors warnings];
      repeat split; try (simpl List.length; lia).
    now rewrite <- app_assoc.
Qed.

Lemma invalid_from_length (questions : list question_dict) (i : nat) :
  List.length (invalid_from i questions)
  = List.length (filter (fun q => negb (fst (validate_question q))) questions).
Proof.
  revert i. induction questions as [|q questions IH]; intros i; [reflexivity|].
  cbn [invalid_from filter].
  destruct (fst (validate_question q)); cbn [negb]; simpl; now rewrite IH.
Qed.

Lemma invalid_from_in (questions : list question_dict) :
  forall i j errs,
    In (j, errs) (invalid_from i questions)
    <-> (i <= j
         /\ exists q, nth_error questions (j - i) = Some q
                      /\ validate_question q = (false, errs)).
Proof.
  induction questions as [|q questions IH]; intros i j errs.
  - simpl. split; [intros [] | intros [_ [q [H _]]]].
    destruct (j - i); discriminate H.
  - cbn [invalid_from].
    assert (R : In (j, errs) (invalid_from (S i) questions)
                <-> (i < j /\ exists q', nth_error questions (j - S i) = Some q'
                                       /\ validate_question q' = (false, errs))).
    { rewrite IH. reflexivity. }
    assert (T : forall q', i < j ->
                (nth_error (q :: questions) (j - i) = Some q'
                 <-> nth_error questions (j - S i) = Some q')).
    { intros q' L. replace (j - i) with (S (j - S i)) by lia. reflexivity. }
    destruct (validate_question q) as [is_valid errs0] eqn:E. cbn [fst snd].
    assert (Here : forall q', nth_error (q :: questions) (i - i) = Some q' -> q' = q).
    { intros q'. rewrite Nat.sub_diag. simpl. now intros [= <-]. }
    destruct is_valid.
    + rewrite R. split.
      * intros [L [q' [N V]]]. split; [lia|]. exists q'. split; [now apply T | exact V].
      * intros [L [q' [N V]]].
        destruct (Nat.eq_dec i j) as [<- | Ne].
        -- apply Here in N. subst q'. rewrite E in V. discriminate V.
        -- split; [lia|]. exists q'. split; [apply T; [lia | exact N] | exact V].
    + cbn [In]. rewrite R. split.
      * intros [[= <- <-] | [L [q' [N V]]]].
        -- split; [lia|]. exists q. rewrite Nat.sub_diag. split; [reflexivity | exact E].
        -- split; [lia|]. exists q'. split; [now apply T | exact V].
      * intros [L [q' [N V]]].
        destruct (Nat.eq_dec i j) as [<- | Ne].
        -- apply Here in N. subst q'. left. rewrite E in V. now injection V as <-.
        -- right. split; [lia|]. exists q'. split; [apply T; [lia | exact N] | exact V].
Qed.

Lemma invalid_from_sorted (questions : list question_dict) :
  forall i, StronglySorted lt (map fst (invalid_from i questions)).
Proof.
  induction questions as [|q questions IH]; intros i; [constructor|].
  cbn [invalid_from]. destruct (fst (validate_question q)); [apply IH|].
  cbn [map fst]. constructor; [apply IH|].
  apply Forall_forall. intros j Hj.
  apply in_map_iff in Hj. destruct Hj as [[j' errs] [<- Hin]].
  apply invalid_from_in in Hin. simpl. lia.
Qed.

Lemma filter_partition_length {A : Type} (f : A -> bool) (l : list A) :
  List.length (filter f l) + List.length (filter (fun x => negb (f x)) l)
  = List.length l.
Proof.
  induction l as [|x l IH]; [reflexivity|].
  simpl. destruct (f x); simpl; lia.
Qed.

End Batches.

(** X11: in the report of [validate_batch] the total is the number of
    questions, valid and invalid add up to it, valid counts the questions
    [validate_question] accepts, and ['errors'] holds exactly one entry
    per rejected question, with its index and its error list, in
    increasing order of index. *)
Theorem X11_validate_batch_report_counts :
  forall questions,
    let r := Validator.validate_batch questions in
    Validator.total r = List.length questions
    /\ Validator.valid r + Validator.invalid r = Validator.total r
    /\ Validator.valid r
       = List.length
           (filter (fun q => fst (Validator.validate_question q)) questions)
    /\ List.length (Validator.errors r) = Validator.invalid r
    /\ StronglySorted lt (map fst (Validator.errors r))
    /\ forall i errs,
         In (i, errs) (Validator.errors r)
         <-> exists q, nth_error questions i = Some q
                       /\ Validator.validate_question q = (false, errs).
Proof.
  intros questions. cbv zeta. unfold Validator.validate_batch.
  match goal with
  | |- context [Validator.batch_loop 0 questions ?r0] =>
      destruct (batch_loop_fields questions 0 r0) as [H1 [H2 [H3 [H4 _]]]];
      set (r := Validator.batch_loop 0 questions r0) in *
  end.
  cbn [Validator.total Validator.valid Validator.invalid Validator.errors
       Validator.warnings] in H1, H2, H3, H4.
  assert (G : Validator.total r = List.length questions
    /\ Validator.valid r + Validator.invalid r = Validator.total r
    /\ Validator.valid r
       = List.length
           (filter (fun q => fst (Validator.validate_question q)) questions)
    /\ List.length (Validator.errors r) = Validator.invalid r
    /\ StronglySorted lt (map fst (Validator.errors r))
    /\ forall i errs,
         In (i, errs) (Validator.errors r)
         <-> exists q, nth_error questions i = Some q
                       /\ Validator.validate_question q = (false, errs)).
  { rewrite H1, H2, H3, H4. cbn [app]. split; [reflexivity|].
    split; [simpl; apply filter_partition_length|].
    split; [reflexivity|].
    split; [simpl; apply invalid_from_length|].
    split; [apply invalid_from_sorted|].
    intros i errs. rewrite invalid_from_in. rewrite Nat.sub_0_r.
    split; [intros [_ H]; exact H | intros H; split; [lia | exact H]]. }
  destruct (PrimFloat.ltb _ _); exact G.
Qed.

(* ================================================================== *)
(** * The conversion service *)
(* ================================================================== *)

Section Client.
Import Constants.
Import EmbeddingGenerator.

Variable world : Type.
Variable generate_content : string -> world -> (exn + string) * world.
Variable question_json : Type.
Variable parse_questions : string -> list question_json.

Local Abbreviation result := (GeminiClient.batch_result question_json).
Local Abbreviation none := (GeminiClient.PyNone_ question_json).
Local Abbreviation text_of := (GeminiClient.Text question_json).
Local Abbreviation one :=
  (GeminiClient.process_one world generate_content question_json parse_questions).
Local Abbreviation loop :=
  (GeminiClient.process_loop world generate_content question_json parse_questions).
Local Abbreviation respond := (GeminiClient.generate_response world generate_content).

Lemma first_type_in (types : list string) (response : string) :
  In (ResponseParser.first_type types response) (types ++ ["unknown"])%list.
Proof.
  induction types as [|t types IH]; simpl; [now left|].
  destruct (Str.contains t response); [now left | now right].
Qed.

Lemma bind_inr {A B : Type} (m : M world A) (f : A -> M world B)
      (w w' : world) (b : B) :
  bind world m f w = (inr b, w') ->
  exists a w1, m w = (inr a, w1) /\ f a w1 = (inr b, w').
Proof.
  unfold bind. destruct (m w) as [[e|a] w1]; [discriminate|].
  intros H. now exists a, w1.
Qed.

(** One round of the loop ends normally, with the result of the call or
    with [None]. *)
Lemma process_round (m : M world result) (acc : list result) (w : world) :
  exists x w',
    try_except world
      (bind world m (fun r => ret world (acc ++ [r])%list))
      (fun _ => ret world (acc ++ [none])%list) w
    = (inr (acc ++ [x])%list, w')
    /\ (x = none \/ m w = (inr x, w')).
Proof.
  unfold try_except, bind, ret.
  destruct (m w) as [[e|x] w1] eqn:E.
  - exists none, w1. split; [reflexivity | now left].
  - exists x, w1. split; [reflexivity | now right].
Qed.

Lemma process_loop_total (P : result -> Prop) (operation : string) :
  P none ->
  (forall text w x w', one text operation w = (inr x, w') -> P x) ->
  forall texts acc w,
    exists xs w',
      loop texts operation acc w = (inr (acc ++ xs)%list, w')
      /\ List.length xs = List.length texts
      /\ Forall P xs.
Proof.
  intros Pn Po. induction texts as [|text rest IH]; intros acc w.
  - exists [], w. simpl. unfold ret. rewrite app_nil_r.
    split; [reflexivity|]. split; [reflexivity | constructor].
  - destruct (process_round (one text operation) acc w) as [x [w1 [E Hx]]].
    destruct (IH (acc ++ [x])%list w1) as [xs [w2 [E2 [L F]]]].
    exists (x :: xs), w2. split; [|split].
    + cbn [GeminiClient.process_loop]. unfold bind at 1.
      rewrite E, E2. now rewrite <- app_assoc.
    + simpl. now rewrite L.
    + constructor; [|exact F].
      destruct Hx as [-> | Hx]; [exact Pn | exact (Po _ _ _ _ Hx)].
Qed.

Lemma process_loop_unknown (operation : string) :
  known_operation operation = false ->
  forall texts acc w,
    loop texts operation acc w
    = (inr (acc ++ repeat none (List.length texts))%list, w).
Proof.
  intros U. unfold known_operation in U. simpl in U.
  apply orb_false_elim in U. destruct U as [U1 U].
  apply orb_false_elim in U. destruct U as [U2 U].
  apply orb_false_elim in U. destruct U as [U3 _].
  induction texts as [|text rest IH]; intros acc w.
  - simpl. unfold ret. now rewrite app_nil_r.
  - cbn [GeminiClient.process_loop]. unfold GeminiClient.process_one.
    rewrite U1, U2, U3. unfold bind, try_except, ret.
    rewrite IH. simpl. now rewrite <- app_assoc.
Qed.

Lemma process_one_type (text : string) (w w' : world) (x : result) :
  one text "type" w = (inr x, w') ->
  exists t, x = text_of t /\ In t type_answers.
Proof.
  unfold GeminiClient.process_one. simpl.
  intros H. apply bind_inr in H. destruct H as [t [w1 [H1 H2]]].
  unfold ret in H2. injection H2 as <- <-.
  unfold GeminiClient.identify_question_type in H1.
  apply bind_inr in H1. destruct H1 as [r [w2 [_ H1]]].
  unfold ret in H1. injection H1 as <- <-.
  exists (ResponseParser.parse_question_type r). split; [reflexivity|].
  exact (first_type_in ResponseParser.valid_types (Str.lower (Str.strip r))).
Qed.

(** X12: [batch_process] never raises and returns one entry per text,
    whatever the remote model does.  For an operation other than
    "extract", "latex" and "type" every entry is [None] and the model is
    not called; for "type" every entry is [None] or one of the five type
    names or "unknown". *)
Theorem X12_batch_process_one_entry_per_text :
  forall texts operation w,
    exists results w',
      GeminiClient.batch_process world generate_content question_json
        parse_questions texts operation w
      = (inr results, w')
      /\ List.length results = List.length texts
      /\ (known_operation operation = false ->
          results = repeat none (List.length texts) /\ w' = w)
      /\ (operation = "type"%string ->
          Forall (fun x => x = none
                           \/ exists t, x = text_of t /\ In t type_answers)
                 results).
Proof.
  intros texts operation w. unfold GeminiClient.batch_process.
  destruct (process_loop_total (fun _ => True) operation I
              (fun _ _ _ _ _ => I) texts [] w) as [xs [w' [E [L _]]]].
  exists xs, w'. split; [exact E|]. split; [exact L|]. split.
  - intros U. rewrite (process_loop_unknown operation U) in E.
    now injection E as <- <-.
  - intros ->.
    destruct (process_loop_total
                (fun x => x = none
                          \/ exists t, x = text_of t /\ In t type_answers)
                "type" (or_introl eq_refl)
                (fun text w0 x w1 H => or_intror (process_one_type text w0 w1 x H))
                texts [] w) as [xs' [w'' [E' [_ F]]]].
    rewrite E in E'. now injection E' as <- <-.
Qed.

(** [generate_response] under a model that always fails, or always
    answers. *)
Lemma try_except_fail {A : Type} (m : M world A) (h : exn -> M world A)
      (w w' : world) (e : exn) :
  m w = (inl e, w') -> try_except world m h w = h e w'.
Proof. intros E. unfold try_except. now rewrite E. Qed.

Lemma try_except_ok {A : Type} (m : M world A) (h : exn -> M world A)
      (w w' : world) (a : A) :
  m w = (inr a, w') -> try_except world m h w = (inr a, w').
Proof. intros E. unfold try_except. now rewrite E. Qed.

Lemma respond_down :
  service_down world generate_content ->
  forall prompt w, exists w', respond prompt w = (inl RetryError, w').
Proof.
  intros D prompt w.
  assert (F : forall w0, exists e w1,
              GeminiClient.generate_response_once world generate_content
                prompt w0 = (inl e, w1)).
  { intros w0. destruct (D prompt w0) as [e [w1 E]].
    unfold GeminiClient.generate_response_once.
    rewrite (try_except_fail _ _ _ _ _ E). unfold raise.
    eexists. eexists. reflexivity. }
  unfold GeminiClient.generate_response. simpl.
  destruct (F w) as [e1 [w1 E1]]. rewrite (try_except_fail _ _ _ _ _ E1).
  destruct (F w1) as [e2 [w2 E2]]. rewrite (try_except_fail _ _ _ _ _ E2).
  destruct (F w2) as [e3 [w3 E3]]. rewrite (try_except_fail _ _ _ _ _ E3).
  now exists w3.
Qed.

Lemma respond_silent :
  service_silent world generate_content ->
  forall prompt w,
    exists response w',
      respond prompt w = (inr response, w')
      /\ ResponseParser.parse_latex response = ""%string.
Proof.
  intros S prompt w. destruct (S prompt w) as [response [w' [E P]]].
  exists response, w'. split; [|exact P].
  unfold GeminiClient.generate_response. simpl.
  apply try_except_ok. unfold GeminiClient.generate_response_once.
  now apply try_except_ok.
Qed.

Local Abbreviation convert_loop := (RAGPipeline.convert_loop world generate_content).

Lemma convert_loop_silent :
  service_silent world generate_content ->
  forall questions acc w,
    exists w',
      convert_loop questions acc w
      = (inr (acc ++ map fallback_entry questions)%list, w').
Proof.
  intros S. induction questions as [|q questions IH]; intros acc w.
  - exists w. simpl. unfold ret. now rewrite app_nil_r.
  - cbn [RAGPipeline.convert_loop].
    unfold GeminiClient.convert_to_latex, bind.
    destruct (respond_silent S
                (PromptTemplates.get_latex_conversion_prompt
                   (QuestionExtractor.text q)) w) as [r [w1 [E P]]].
    rewrite E. unfold ret. rewrite P. cbn [Str.truthy negb].
    destruct (IH (acc ++ [fallback_entry q])%list w1) as [w2 E2].
    exists w2. unfold fallback_entry in E2 at 1. rewrite E2.
    now rewrite <- app_assoc.
Qed.

Lemma convert_loop_down :
  service_down world generate_content ->
  forall q questions acc w,
    exists w', convert_loop (q :: questions) acc w = (inl RetryError, w').
Proof.
  intros D q questions acc w. cbn [RAGPipeline.convert_loop].
  unfold GeminiClient.convert_to_latex, bind.
  destruct (respond_down D
              (PromptTemplates.get_latex_conversion_prompt
                 (QuestionExtractor.text q)) w) as [w1 E].
  rewrite E. now exists w1.
Qed.

Lemma convert_loop_carried (questions : list QuestionExtractor.Question) :
  forall acc w out w',
    convert_loop questions acc w = (inr out, w') ->
    exists xs, out = (acc ++ xs)%list /\ Forall2 carried questions xs.
Proof.
  induction questions as [|q questions IH]; intros acc w out w' H.
  - simpl in H. unfold ret in H. injection H as <- <-.
    exists []. rewrite app_nil_r. split; [reflexivity | constructor].
  - cbn [RAGPipeline.convert_loop] in H.
    apply bind_inr in H. destruct H as [l [w1 [_ H]]].
    apply IH in H. destruct H as [xs [-> F]].
    eexists. rewrite <- app_assoc. split; [reflexivity|].
    constructor; [|exact F]. unfold carried. simpl. repeat split.
Qed.

(** The loop returns exactly the entries built from the responses. *)
Lemma convert_loop_converted (questions : list QuestionExtractor.Question) :
  forall acc w out w',
    convert_loop questions acc w = (inr out, w')
    <-> exists xs, out = (acc ++ xs)%list
                   /\ converted world generate_content w questions xs w'.
Proof.
  induction questions as [|q questions IH]; intros acc w out w'.
  - cbn [RAGPipeline.convert_loop]. unfold ret. split.
    + intros [= <- <-]. exists []. rewrite app_nil_r.
      split; [reflexivity | constructor].
    + intros [xs [-> C]]. inversion C; subst. now rewrite app_nil_r.
  - cbn [RAGPipeline.convert_loop].
    unfold GeminiClient.convert_to_latex, bind.
    destruct (respond (PromptTemplates.get_latex_conversion_prompt
                         (QuestionExtractor.text q)) w)
      as [[e | response] w1] eqn:E.
    + split; [discriminate|].
      intros [xs [_ C]]. inversion C; subst. congruence.
    + unfold ret.
      assert (R : {| RAGPipeline.original_text := QuestionExtractor.text q;
                     RAGPipeline.latex :=
                       (if negb (Str.truthy (ResponseParser.parse_latex response))
                        then LaTeXConverter.convert (QuestionExtractor.text q)
                               "inline"
                        else ResponseParser.parse_latex response);
                     RAGPipeline.question_type :=
                       QuestionType_value (QuestionExtractor.question_type q);
                     RAGPipeline.number := QuestionExtractor.number q;
                     RAGPipeline.page_number := QuestionExtractor.page_number q;
                     RAGPipeline.confidence := QuestionExtractor.confidence q |}
                  = entry_of_response q response).
      { unfold entry_of_response.
        destruct (ResponseParser.parse_latex response); reflexivity. }
      rewrite R, IH. split.
      * intros [xs [-> C]]. exists (entry_of_response q response :: xs).
        rewrite <- app_assoc. split; [reflexivity|].
        now apply converted_cons with (w1 := w1).
      * intros [xs [-> C]]. inversion C; subst.
        match goal with
        | H : respond _ w = (inr ?r, ?w0) |- _ =>
            rewrite E in H; injection H as <- <-
        end.
        eexists. rewrite <- app_assoc. split; [reflexivity | eassumption].
Qed.

Lemma respond_answers (answer_of : string -> string) :
  service_answers world generate_content answer_of ->
  forall prompt w,
    exists w', respond prompt w = (inr (answer_of prompt), w').
Proof.
  intros S prompt w. destruct (S prompt w) as [w' E]. exists w'.
  unfold GeminiClient.generate_response. simpl.
  apply try_except_ok. unfold GeminiClient.generate_response_once.
  now apply try_except_ok.
Qed.

Lemma converted_answers (answer_of : string -> string) :
  service_answers world generate_content answer_of ->
  forall questions w,
    exists w',
      converted world generate_content w questions
        (map (fun q =>
                entry_of_response q
                  (answer_of (PromptTemplates.get_latex_conversion_prompt
                                (QuestionExtractor.text q))))
             questions) w'.
Proof.
  intros S. induction questions as [|q questions IH]; intros w.
  - exists w. constructor.
  - destruct (respond_answers answer_of S
                (PromptTemplates.get_latex_conversion_prompt
                   (QuestionExtractor.text q)) w) as [w1 E].
    destruct (IH w1) as [w2 C]. exists w2. cbn [map].
    now apply converted_cons with (w1 := w1).
Qed.

(** X13: [_convert_questions_to_latex] returns, question by question,
    the entry built from the response of the model: the markup
    [parse_latex] finds in the response is kept as it is, and the
    rule-based converter (inline mode) is used only when it finds none.
    So a model that answers every prompt gives every question the markup
    of its answer, or the rule-based markup where the answer holds none;
    a model that always gives none gives every question the rule-based
    markup; and when the model fails at every call, the retries of the
    first question are exhausted and the call raises [RetryError], with
    no fallback and no result for any question.  When the call returns,
    it returns one entry per question, in order, with the text, type,
    number, page number and confidence of the question. *)
Theorem X13_convert_questions_fallback_only_on_empty_answer :
  (forall questions w out w',
      RAGPipeline._convert_questions_to_latex world generate_content
        questions w = (inr out, w')
      <-> converted world generate_content w questions out w')
  /\ (forall answer_of,
        service_answers world generate_content answer_of ->
        forall questions w,
          exists w',
            RAGPipeline._convert_questions_to_latex world generate_content
              questions w
            = (inr (map (fun q =>
                           entry_of_response q
                             (answer_of
                                (PromptTemplates.get_latex_conversion_prompt
                                   (QuestionExtractor.text q))))
                        questions), w'))
  /\ (forall q response,
        (ResponseParser.parse_latex response <> ""%string ->
         RAGPipeline.latex (entry_of_response q response)
         = ResponseParser.parse_latex response)
        /\ (ResponseParser.parse_latex response = ""%string ->
            RAGPipeline.latex (entry_of_response q response)
            = LaTeXConverter.convert (QuestionExtractor.text q) "inline")
        /\ carried q (entry_of_response q response))
  /\ (service_silent world generate_content ->
      forall questions w,
        exists w',
          RAGPipeline._convert_questions_to_latex world generate_content
            questions w
          = (inr (map fallback_entry questions), w'))
  /\ (service_down world generate_content ->
      forall q questions w,
        exists w',
          RAGPipeline._convert_questions_to_latex world generate_content
            (q :: questions) w
          = (inl RetryError, w'))
  /\ (forall questions w out w',
        RAGPipeline._convert_questions_to_latex world generate_content
          questions w = (inr out, w') ->
        List.length out = List.length questions
        /\ Forall2 carried questions out).
Proof.
  unfold RAGPipeline._convert_questions_to_latex.
  split; [|split; [|split; [|split; [|split]]]].
  - intros questions w out w'. rewrite convert_loop_converted. split.
    + intros [xs [-> C]]. exact C.
    + intros C. now exists out.
  - intros answer_of S questions w.
    destruct (converted_answers answer_of S questions w) as [w' C].
    exists w'. apply convert_loop_converted. eexists. split; [reflexivity|].
    exact C.
  - intros q response. unfold entry_of_response.
    destruct (ResponseParser.parse_latex response) as [|c t].
    + split; [intros N; now elim N|]. split; [reflexivity|].
      unfold carried. simpl. repeat split.
    + split; [reflexivity|]. split; [discriminate|].
      unfold carried. simpl. repeat split.
  - intros S questions w. exact (convert_loop_silent S questions [] w).
  - intros D q questions w. exact (convert_loop_down D q questions [] w).
  - intros questions w out w' H.
    destruct (convert_loop_carried questions [] w out w' H) as [xs [-> F]].
    split; [|exact F]. simpl. symmetry. exact (Forall2_length F).
Qed.

End Client.

(** X13 at a service that answers every call with the markup of x
    squared: the question of the first scenario gets that markup, not
    the markup of the rule-based converter. *)
Lemma X13_witness :
  exists calls,
    RAGPipeline._convert_questions_to_latex nat markup_service
      [scenario_question] 0
    = (inr [entry_with "$x^{2}$" scenario_question], calls).
Proof.
  assert (S : service_answers nat markup_service (fun _ => "$x^{2}$"%string)).
  { intros prompt w. exists (S w). reflexivity. }
  exact (proj1 (proj2 (X13_convert_questions_fallback_only_on_empty_answer
                         nat markup_service))
           (fun _ => "$x^{2}$"%string) S [scenario_question] 0).
Defined.

Example convert_questions_silent_service :
  RAGPipeline._convert_questions_to_latex nat silent_service
    [scenario_question] 0
  = (inr [fallback_entry scenario_question], 1).
Proof. vm_compute. reflexivity. Qed.

Example convert_questions_failing_service :
  RAGPipeline._convert_questions_to_latex nat failing_service
    [scenario_question] 0
  = (inl Constants.RetryError, 3).
Proof. vm_compute. reflexivity. Qed.

(* ================================================================== *)
(** * Markup without commands *)
(* ================================================================== *)

Section Plain.
Import Re.

(** A pattern that begins with a backslash does not match where the text
    does not begin with one. *)
Lemma run_backslash (r : regex) (prev : option ascii) (s : string)
      (cs : caps) (k : cont) :
  match s with
  | String c _ => Ascii.eqb "\" c = false
  | EmptyString => True
  end ->
  run NOFLAGS (Seq (chr "\") r) prev s cs k = None.
Proof.
  destruct s as [|c s]; intros H; [reflexivity|].
  cbn [run chr]. unfold cls_ok. rewrite H. reflexivity.
Qed.

Lemma run_backslash2 (r1 r2 : regex) (prev : option ascii) (s : string)
      (cs : caps) (k : cont) :
  match s with
  | String c _ => Ascii.eqb "\" c = false
  | EmptyString => True
  end ->
  run NOFLAGS (Seq (Seq (chr "\") r1) r2) prev s cs k = None.
Proof.
  intros H. cbn [run]. apply (run_backslash r1 prev s cs _ H).
Qed.

Lemma head_no_backslash (c : ascii) (s : string) :
  no_backslash (String c s) = true ->
  Ascii.eqb "\" c = false /\ no_backslash s = true.
Proof.
  unfold no_backslash. cbn [Str.mem_char]. intros H.
  apply negb_true_iff, orb_false_elim in H. destruct H as [H1 H2].
  split; [exact H1 | now apply negb_true_iff].
Qed.

Lemma match_here_backslash (r : regex) (prev : option ascii) (s : string) :
  backslash_first r -> no_backslash s = true ->
  match_here NOFLAGS r prev s = None.
Proof.
  intros B H. unfold match_here.
  assert (G : match s with
              | String c _ => Ascii.eqb "\" c = false
              | EmptyString => True
              end).
  { destruct s as [|c s]; [exact I | exact (proj1 (head_no_backslash c s H))]. }
  destruct B as [[r1 ->] | [r1 [r2 ->]]].
  - now rewrite run_backslash.
  - now rewrite run_backslash2.
Qed.

Lemma search_backslash (r : regex) (s : string) :
  backslash_first r -> no_backslash s = true ->
  forall prev, search_from NOFLAGS r prev s = None.
Proof.
  intros B. induction s as [|c s IH]; intros H prev; cbn [search_from];
    rewrite (match_here_backslash r prev _ B H); [reflexivity|].
  apply IH. exact (proj2 (head_no_backslash c s H)).
Qed.

Lemma finditer_backslash (r : regex) (s : string) :
  backslash_first r -> no_backslash s = true ->
  forall prev skip, finditer_aux NOFLAGS r prev skip s = [].
Proof.
  intros B. induction s as [|c s IH]; intros H prev skip.
  - destruct skip; cbn [finditer_aux]; [|reflexivity].
    now rewrite (match_here_backslash r prev _ B H).
  - pose proof (proj2 (head_no_backslash c s H)) as H'.
    destruct skip; cbn [finditer_aux].
    + rewrite (match_here_backslash r prev _ B H). now apply IH.
    + now apply IH.
Qed.

Lemma startswith_backslash (t s : string) :
  no_backslash s = true -> Str.startswith (String "\" t) s = false.
Proof.
  destruct s as [|c s]; intros H; [reflexivity|].
  cbn [Str.startswith]. now rewrite (proj1 (head_no_backslash c s H)).
Qed.

Lemma count_aux_backslash (t s : string) :
  no_backslash s = true ->
  forall skip, Str.count_aux (String "\" t) skip s = 0.
Proof.
  induction s as [|c s IH]; intros H skip; [reflexivity|].
  pose proof (proj2 (head_no_backslash c s H)) as H'.
  cbn [Str.count_aux]. destruct skip; [|now apply IH].
  rewrite (startswith_backslash t _ H). now apply IH.
Qed.

Lemma count_backslash (t s : string) :
  no_backslash s = true -> Str.count (String "\" t) s = 0.
Proof. intros H. unfold Str.count. now apply count_aux_backslash. Qed.

Lemma replace_each_nil (f : nat -> string -> string * string) (i : nat)
      (text : string) :
  LaTeXConverter.replace_each f i [] text = text.
Proof. reflexivity. Qed.

End Plain.

(** X14: for markup without a backslash, [validate_latex] reports no
    invalid command, no missing braces after a command and no invalid
    fraction: its errors are among the brace, delimiter and double
    subscript or superscript messages, and the delimiters are balanced
    exactly when the number of dollar signs is even. *)
Theorem X14_plain_markup_has_no_command_error :
  forall s,
    no_backslash s = true ->
    Validator._check_invalid_commands s = []
    /\ Validator._check_balanced_delimiters s = Nat.even (Str.count "$" s)
    /\ forall e, In e (Validator.validate_latex s) ->
                 In e ["Unbalanced braces in LaTeX";
                       "Unbalanced math delimiters";
                       "Double subscripts or superscripts detected"].
Proof.
  intros s H.
  assert (C : Validator._check_invalid_commands s = []).
  { unfold Validator._check_invalid_commands, Re.finditer.
    rewrite finditer_backslash; [reflexivity | | exact H].
    left. eexists. reflexivity. }
  assert (D : Validator._check_balanced_delimiters s = Nat.even (Str.count "$" s)).
  { unfold Validator._check_balanced_delimiters, Re.finditer.
    rewrite !(count_backslash _ s H).
    rewrite finditer_backslash; [| |exact H].
    - cbn [map forallb Nat.eqb negb]. rewrite Z.sub_0_r.
      rewrite <- (Nat2Z.id (Str.count "$" s)) at 2.
      generalize (Str.count "$" s). intros n.
      rewrite Nat2Z.id, <- Nat.negb_odd.
      destruct (Z.of_nat n mod 2 =? 0)%Z eqn:E.
      + apply Z.eqb_eq in E. cbn [negb].
        destruct (Nat.odd n) eqn:O; [|reflexivity].
        apply Nat.odd_spec in O. destruct O as [k ->].
        exfalso. rewrite Nat2Z.inj_add, Nat2Z.inj_mul in E.
        rewrite Z.add_comm, Z.mul_comm, Z.mod_add in E by lia.
        discriminate E.
      + apply Z.eqb_neq in E. cbn [negb].
        destruct (Nat.odd n) eqn:O; [reflexivity|].
        exfalso. apply E.
        assert (Ev : Nat.even n = true) by (rewrite <- Nat.negb_odd, O; reflexivity).
        apply Nat.even_spec in Ev. destruct Ev as [k ->].
        rewrite Nat2Z.inj_mul, Z.mul_comm. apply Z.mod_mul. lia.
    - right. exists (Re.lit "begin{"). eexists. reflexivity. }
  split; [exact C|]. split; [exact D|].
  intros e. unfold Validator.validate_latex. rewrite C.
  unfold Validator._check_common_latex_errors.
  assert (M : Re.search Re.NOFLAGS
                (Re.seq [Re.chr "\";
                         Re.alts [Re.lit "frac"; Re.lit "sqrt"; Re.lit "sum";
                                  Re.lit "int"];
                         Re.plus Re.space; Re.noneof "{"]) s = None).
  { unfold Re.search. apply search_backslash; [|exact H].
    left. eexists. reflexivity. }
  assert (F : Re.search Re.NOFLAGS
                (Re.seq [Re.lit "\frac"; Re.noneof "{"]) s = None).
  { unfold Re.search. apply search_backslash; [|exact H].
    right. exists (Re.lit "frac"). eexists. reflexivity. }
  rewrite M.
  rewrite F. cbn [Re.is_some].
  destruct (negb (Validator._check_balanced_braces s));
    destruct (negb (Validator._check_balanced_delimiters s));
    destruct (_ || _)%bool; cbn [app In]; tauto.
Qed.

Lemma X14_witness :
  Validator._check_invalid_commands "$x^{2} + 1$" = []
  /\ Validator._check_balanced_delimiters "$x^{2} + 1$" = true.
Proof.
  destruct (X14_plain_markup_has_no_command_error "$x^{2} + 1$" eq_refl)
    as [H1 [H2 _]].
  split; [exact H1 | exact H2].
Defined.

(** X15: a text without a backslash has nothing to protect:
    [_protect_existing_latex] returns the text as it is, with an empty
    list of protected commands. *)
Theorem X15_protect_without_commands_is_identity :
  forall text,
    no_backslash text = true ->
    LaTeXConverter._protect_existing_latex text = (text, []).
Proof.
  intros text H. unfold LaTeXConverter._protect_existing_latex, Re.finditer.
  rewrite finditer_backslash; [reflexivity | | exact H].
  left. eexists. reflexivity.
Qed.

Lemma X15_witness :
  LaTeXConverter._protect_existing_latex "x^2 + 1/2" = ("x^2 + 1/2", []).
Proof.
  exact (X15_protect_without_commands_is_identity "x^2 + 1/2" eq_refl).
Defined.

(* ================================================================== *)
(** * The shape of the blocks *)
(* ================================================================== *)

Section Shape.
Import QuestionExtractor.

Lemma split_not_nil (text : string) :
  exists line lines, Str.split Str.nl text = line :: lines.
Proof.
  destruct (Str.split Str.nl text) as [|l ls] eqn:E.
  - exfalso. revert E. apply split_acc_not_nil.
  - now exists l, ls.
Qed.

Lemma blocks_inv_first (line : string) :
  blocks_inv (split_step ([], []) line).
Proof.
  unfold split_step, blocks_inv.
  destruct (_is_question_start line); simpl; (split; [discriminate | now left]).
Qed.

Lemma opened_block_snoc (cur : list string) (line : string) :
  cur <> [] ->
  _is_question_start line = false ->
  opened_block (Str.join Str.NL cur) ->
  (forall l rest, Str.join Str.NL cur = Str.join Str.NL (l :: rest) ->
                  Str.join Str.NL (cur ++ [line])
                  = Str.join Str.NL (l :: rest ++ [line])) ->
  opened_block (Str.join Str.NL (cur ++ [line])).
Proof.
  intros Hc Hl [l [rest [E [S F]]]] J.
  exists l, (rest ++ [line])%list. split; [now apply J|].
  split; [exact S|]. apply Forall_app. split; [exact F|].
  constructor; [exact Hl | constructor].
Qed.

Lemma join_snoc_eq (cur : list string) (line l : string) (rest : list string) :
  cur <> [] ->
  Str.join Str.NL cur = Str.join Str.NL (l :: rest) ->
  Str.join Str.NL (cur ++ [line]) = Str.join Str.NL (l :: rest ++ [line]).
Proof.
  intros Hc E.
  rewrite (join_snoc cur line Hc).
  change (l :: rest ++ [line])%list with ((l :: rest) ++ [line])%list.
  rewrite (join_snoc (l :: rest) line) by discriminate.
  now rewrite E.
Qed.

Lemma blocks_inv_step (st : list string * list string) (line : string) :
  blocks_inv st -> blocks_inv (split_step st line).
Proof.
  destruct st as [blocks cur]. unfold blocks_inv. cbn [fst snd].
  intros [Hc H]. unfold split_step.
  destruct (_is_question_start line) eqn:S; cbn [fst snd].
  - split; [discriminate|]. right. split.
    + exists line, []. split; [reflexivity|]. split; [exact S | constructor].
    + destruct cur as [|c cur]; [congruence|].
      destruct H as [-> | [O [b0 [bs [-> F]]]]].
      * exists (Str.join Str.NL (c :: cur)), []. split; [reflexivity | constructor].
      * exists b0, (bs ++ [Str.join Str.NL (c :: cur)])%list.
        split; [reflexivity|]. apply Forall_app. split; [exact F|].
        constructor; [exact O | constructor].
  - split; [destruct cur; discriminate|].
    destruct H as [-> | [O [b0 [bs [-> F]]]]]; [now left|].
    right. split; [|now exists b0, bs].
    apply opened_block_snoc; try assumption.
    intros l rest E. now apply join_snoc_eq.
Qed.

Lemma blocks_inv_fold (lines : list string) :
  forall st, blocks_inv st -> blocks_inv (fold_left split_step lines st).
Proof.
  induction lines as [|l lines IH]; intros st H; [exact H|].
  simpl. apply IH. now apply blocks_inv_step.
Qed.

Lemma flush_length_step (st : list string * list string) (line : string) :
  snd st <> [] ->
  List.length (flush (split_step st line))
  = List.length (flush st) + (if _is_question_start line then 1 else 0).
Proof.
  destruct st as [blocks cur]. cbn [snd]. intros Hc.
  destruct cur as [|c cur]; [congruence|].
  unfold split_step. destruct (_is_question_start line); unfold flush;
    cbn [fst snd app]; rewrite !length_app; simpl; lia.
Qed.

Lemma flush_length_fold (lines : list string) :
  forall st,
    snd st <> [] ->
    List.length (flush (fold_left split_step lines st))
    = List.length (flush st) + List.length (filter _is_question_start lines).
Proof.
  induction lines as [|l lines IH]; intros st H; simpl; [lia|].
  rewrite IH by apply split_step_open.
  rewrite (flush_length_step st l H).
  destruct (_is_question_start l); simpl; lia.
Qed.

End Shape.

(** X16: the blocks of a text are one block for its first line and one
    more for every later line that starts a block; every block but the
    first is a block-start line followed by lines that start no block. *)
Theorem X16_blocks_open_at_block_start_lines :
  forall text,
    exists line lines first others,
      Str.split Str.nl text = line :: lines
      /\ QuestionExtractor._split_into_blocks text = first :: others
      /\ List.length others
         = List.length (filter QuestionExtractor._is_question_start lines)
      /\ Forall opened_block others.
Proof.
  intros text. destruct (split_not_nil text) as [line [lines E]].
  exists line, lines.
  pose proof (split_into_blocks_flush text) as B. rewrite E in B.
  cbn [fold_left] in B.
  pose proof (blocks_inv_fold lines _ (blocks_inv_first line)) as Inv.
  pose proof (flush_length_fold lines _
                (split_step_open ([], []) line)) as L.
  assert (L0 : List.length (flush (QuestionExtractor.split_step ([], []) line)) = 1).
  { unfold QuestionExtractor.split_step.
    destruct (QuestionExtractor._is_question_start line); reflexivity. }
  rewrite L0 in L. rewrite <- B in L.
  destruct (fold_left QuestionExtractor.split_step lines
              (QuestionExtractor.split_step ([], []) line))
    as [blocks cur] eqn:F.
  destruct Inv as [Hc H]. cbn [fst snd] in Hc, H.
  unfold flush in B. cbn [fst snd] in B.
  destruct cur as [|c cur]; [congruence|].
  destruct H as [-> | [O [b0 [bs [-> Fb]]]]].
  - exists (Str.join Str.NL (c :: cur)), [].
    split; [exact E|]. split; [rewrite B; reflexivity|].
    split; [|constructor].
    rewrite B in L. cbn [app Datatypes.length] in L. cbn [Datatypes.length]. lia.
  - exists b0, (bs ++ [Str.join Str.NL (c :: cur)])%list.
    split; [exact E|]. split; [rewrite B; reflexivity|]. split.
    + rewrite B in L. cbn [app Datatypes.length] in L. lia.
    + apply Forall_app. split; [exact Fb|].
      constructor; [exact O | constructor].
Qed.

(** X17: [generate_embedding] returns the first answer of at most three
    calls, and when the three calls fail it raises [RetryError]; the
    [LLMError] raised inside never reaches the caller. *)
Theorem X17_generate_embedding_raises_only_retry_error :
  forall (world : Type)
         (embed_content :
            string -> string -> world
            -> (Constants.exn + EmbeddingGenerator.ndarray) * world)
         (text : string) (w : world),
    ((exists v w',
         EmbeddingGenerator.generate_embedding world embed_content text w
         = (inr v, w')
         /\ answered world embed_content text w v w')
     \/ (exists w',
            EmbeddingGenerator.generate_embedding world embed_content text w
            = (inl Constants.RetryError, w')
            /\ exhausted world embed_content text w w'))
    /\ forall e w',
         EmbeddingGenerator.generate_embedding world embed_content text w
         = (inl e, w') ->
         e = Constants.RetryError.
Proof.
  intros world embed_content text w.
  pose proof (generate_embedding_cases world embed_content text w) as C.
  split; [exact C|].
  intros e w' H. destruct C as [[v [w1 [E _]]] | [w1 [E _]]];
    rewrite E in H; [discriminate H | now injection H as <- _].
Qed.

(** X18: [add_documents_to_index] sends the database one call with all
    the documents, one embedding per document (the zero vector for a
    document whose three embedding attempts failed), the metadata it was
    given (an empty dictionary per document when it was given none) and
    the default identifiers.  No failure of the embedding service makes
    it raise: it raises exactly when the database refuses that call, and
    then it raises what the database raised; when the database accepts
    the call, the call is added to the collection. *)
Theorem X18_add_documents_to_index_sends_one_call :
  forall (world : Type)
         (embed_content :
            string -> string -> world
            -> (Constants.exn + EmbeddingGenerator.ndarray) * world)
         (refuses : VectorStore.collection -> VectorStore.add_call
                    -> option Constants.exn)
         documents metadatas c (w : world),
    exists call w',
      Database.add_documents_to_index world embed_content refuses
        documents metadatas c w
      = (match refuses c call with
         | Some e => inl e
         | None => inr (c ++ [call])%list
         end, w')
      /\ VectorStore.add_documents_arg call = documents
      /\ VectorStore.add_metadatas_arg call
         = match metadatas with
           | Some given => given
           | None => repeat [] (List.length documents)
           end
      /\ VectorStore.add_ids_arg call
         = VectorStore.default_ids (List.length documents)
      /\ List.length (VectorStore.add_embeddings_arg call)
         = List.length documents
      /\ batch_items world embed_content w documents
           (VectorStore.add_embeddings_arg call) w'.
Proof.
  intros world embed_content refuses documents metadatas c w.
  destruct (batch_loop_total world embed_content documents [] w)
    as [vs [w' [E B]]].
  eexists. exists w'.
  unfold Database.add_documents_to_index, EmbeddingGenerator.bind,
    EmbeddingGenerator.generate_batch_embeddings.
  rewrite E. cbn [app].
  unfold Database.add_documents, Database.collection_add.
  split; [reflexivity|]. cbn [VectorStore.add_documents_arg
    VectorStore.add_metadatas_arg VectorStore.add_embeddings_arg
    VectorStore.add_ids_arg].
  split; [reflexivity|]. split; [reflexivity|]. split; [reflexivity|].
  rewrite map_id. split; [|exact B].
  exact (batch_items_length world embed_content _ _ _ _ B).
Qed.

(** A database that refuses an empty batch: indexing no document
    raises, although no embedding call was made. *)
Example add_documents_to_index_empty_batch :
  Database.add_documents_to_index nat counting_service
    (fun _ call =>
       match VectorStore.add_documents_arg call with
       | [] => Some (Constants.OtherError "ValueError" "empty batch")
       | _ => None
       end)
    [] None [] 0
  = (inl (Constants.OtherError "ValueError" "empty batch"), 0).
Proof. vm_compute. reflexivity. Qed.
